(** * youtube_say.py: a relay from a live chat to the macOS [say] command

    A shallow embedding of [src/youtube_say.py] and the properties of its
    three functions [say], [friendly_name] and [main].

    Python strings are sequences of Unicode code points.  The methods the
    script calls on them ([replace], [lower], [strip], [lstrip]) are
    embedded here with their CPython meaning; what they read from the
    Unicode character database for code points outside ASCII is a
    parameter of the development ([UnicodeDB]), and so are the
    collaborators of the script: the chat session of [pytchat], the
    process started by [subprocess.run] and the encoding of standard
    output, on which [print] raises for a text it cannot encode
    ([Collaborators]). *)

From Stdlib Require Import String Ascii.
From Stdlib Require Import List NArith ZArith Bool Arith Lia.
Import ListNotations.

Set Implicit Arguments.

(** ** Python strings *)

Module PyStr.

(** A code point, U+0000 to U+10FFFF. *)
Definition char := N.

(** [str]: an immutable sequence of code points; [len] is [length]. *)
Definition str := list char.

(** A literal of the source, written as a Rocq string of ASCII characters. *)
Definition py (s : string) : str := map N_of_ascii (list_ascii_of_string s).

Definition DQUOTE : char := 34%N.   (* U+0022, the double quote *)
Definition SQUOTE : char := 39%N.   (* U+0027, the single quote *)
Definition NEWLINE : char := 10%N.  (* U+000A, the line feed written \n *)
Definition SPACE : char := 32%N.    (* U+0020 *)

(** [a == b] on strings. *)
Fixpoint str_eqb (a b : str) : bool :=
  match a, b with
  | [], [] => true
  | x :: a', y :: b' => (x =? y)%N && str_eqb a' b'
  | _, _ => false
  end.

(** [x in (t0, t1, ...)], membership in a tuple of strings. *)
Definition in_tuple (x : str) (t : list str) : bool := existsb (str_eqb x) t.

(** [not s]: the empty string is the only false one. *)
Definition py_not (s : str) : bool :=
  match s with
  | [] => true
  | _ :: _ => false
  end.

(** [s.replace(old, new)] for a needle [old] of one character, the only
    use the script makes of it: every occurrence is replaced. *)
Fixpoint replace (old : char) (new : str) (s : str) : str :=
  match s with
  | [] => []
  | c :: rest =>
      if (c =? old)%N then new ++ replace old new rest
      else c :: replace old new rest
  end.

(** What [str.lower] and [str.strip] look up in the Unicode character
    database.  [lower_ucs4 data i c] is the lower-case mapping (one to
    three code points) of the code point [c >= 128] found at index [i] of
    [data]; the position is an argument because the mapping of U+03A3
    depends on its neighbours.  [is_whitespace c] tells whether
    [c >= 128] is white space. *)
Class UnicodeDB := {
  lower_ucs4 : str -> nat -> char -> list char;
  is_whitespace : char -> bool
}.

(** Lower case of an ASCII code point: only A..Z change. *)
Definition ascii_tolower (c : char) : char :=
  if ((65 <=? c) && (c <=? 90))%N then (c + 32)%N else c.

(** White space among the ASCII code points: TAB, LF, VT, FF, CR,
    FS, GS, RS, US and the space. *)
Definition ascii_whitespace (c : char) : bool :=
  ((9 <=? c) && (c <=? 13) || (28 <=? c) && (c <=? 31) || (c =? 32))%N.

Section WithUnicode.
Context {U : UnicodeDB}.

(** [do_lower data i rest]: the lower case of the suffix [rest] of
    [data] that starts at index [i]. *)
Fixpoint do_lower (data : str) (i : nat) (rest : str) : str :=
  match rest with
  | [] => []
  | c :: rest' =>
      (if (c <? 128)%N then [ascii_tolower c] else lower_ucs4 data i c)
        ++ do_lower data (S i) rest'
  end.

(** [s.lower()] *)
Definition lower (s : str) : str := do_lower s 0 s.

(** [Py_UNICODE_ISSPACE] *)
Definition isspace (c : char) : bool :=
  if (c <? 128)%N then ascii_whitespace c else is_whitespace c.

(** Drop the longest prefix, or suffix, whose characters satisfy [p]. *)
Fixpoint drop_leading (p : char -> bool) (s : str) : str :=
  match s with
  | [] => []
  | c :: rest => if p c then drop_leading p rest else s
  end.

Definition drop_trailing (p : char -> bool) (s : str) : str :=
  rev (drop_leading p (rev s)).

(** [s.strip()]: white space removed at both ends. *)
Definition strip (s : str) : str := drop_trailing isspace (drop_leading isspace s).

(** [s.lstrip(chars)]: the leading characters that occur in [chars] are
    removed, however many there are. *)
Definition lstrip (chars : str) (s : str) : str :=
  drop_leading (fun c => existsb (N.eqb c) chars) s.

End WithUnicode.

(** A database without any entry outside ASCII; it gives the parameters a
    value where a property is evaluated on an ASCII input, on which every
    database agrees. *)
Definition ascii_only : UnicodeDB :=
  {| lower_ucs4 := fun _ _ c => [c]; is_whitespace := fun _ => false |}.

End PyStr.
Import PyStr.

(** ** The pure part of the script *)

Section Pure.
Context {U : UnicodeDB}.

(** The value bound to [normalized] in [friendly_name], line 33. *)
Definition normalized (author : str) : str :=
  lstrip (py "@") (strip (lower author)).

(** [friendly_name], lines 31-36. *)
Definition friendly_name (author : str) : str :=
  if in_tuple (normalized author) [py "nu11"; py "null"] then py "null"
  else author.

(** The value bound to [clean] in [say], line 24. *)
Definition sanitize (text : str) : str :=
  replace NEWLINE (py " ") (replace SQUOTE (py "") (replace DQUOTE (py "") text)).

(** *** The same two steps, in the words of the specification *)

(** Section 4.2: lowercase, strip leading and trailing whitespace, strip
    a single leading @ if present. *)
Definition strip_one_at (s : str) : str :=
  match s with
  | c :: rest => if (c =? 64)%N then rest else s
  | [] => []
  end.

Definition spec_normalized (author : str) : str :=
  strip_one_at (strip (lower author)).

(** Section 4.3: remove all double-quote characters, single-quote
    characters and newline characters from the text. *)
Definition spec_sanitize (text : str) : str :=
  filter (fun c => negb ((c =? DQUOTE) || (c =? SQUOTE) || (c =? NEWLINE))%N) text.

End Pure.

(** What [sanitize] does to one character. *)
Definition sanitize_char (c : char) : str :=
  if ((c =? DQUOTE) || (c =? SQUOTE))%N then []
  else if (c =? NEWLINE)%N then [SPACE]
  else [c].

(** The number of quote characters, double or single, of a text. *)
Definition quotes (s : str) : nat :=
  count_occ N.eq_dec s DQUOTE + count_occ N.eq_dec s SQUOTE.

(** ** The collaborators and the effects of the script *)

(** A chat item as the loop reads it: [c.author.name] and [c.message]. *)
Record ChatItem := { author_name : str; message : str }.

(** What the script does to the outside, in the order it does it. *)
Inductive event :=
| EPrint (text : str)        (* print(text), on standard output *)
| ECreate (video_id : str)   (* pytchat.create(video_id=video_id) *)
| EIsAlive                   (* chat.is_alive() *)
| EGet                       (* chat.get().sync_items() *)
| ERun (argv : list str)     (* subprocess.run(argv) *)
| ESleep (ms : N).           (* time.sleep(ms / 1000) *)

(** The chat service, the operating system and the standard output.
    [World] is the state of all that is outside the script; a call
    answers and moves that state, and the answer [None] is an exception
    raised by the call.  [stdout_encodes c] tells whether the encoding of
    [sys.stdout] has a code for the code point [c >= 128]; [print] raises
    [UnicodeEncodeError] on a text that holds one it has no code for. *)
Class Collaborators := {
  World : Type;
  pytchat_create : str -> World -> option unit * World;
  chat_is_alive : World -> option bool * World;
  chat_get : World -> option (list ChatItem) * World;
  subprocess_run : list str -> World -> option unit * World;
  stdout_encodes : char -> bool
}.

(** How a piece of the script ends. *)
Inductive outcome (A : Type) :=
| Returned (a : A)       (* it returns [a] *)
| SystemExit (code : Z)  (* sys.exit(code) was called *)
| Raised                 (* an exception, of a collaborator or of print, propagates *)
| OutOfFuel.             (* the bound on the polls of the model was reached *)
Arguments SystemExit {A} code.
Arguments Raised {A}.
Arguments OutOfFuel {A}.

(** The exit status of the process when [main()], called at the top
    level of the script, ends with the outcome [o]. *)
Definition exit_status (o : outcome unit) : option Z :=
  match o with
  | Returned _ => Some 0%Z
  | SystemExit code => Some code
  | Raised => Some 1%Z
  | OutOfFuel => None
  end.

Section Effects.
Context {U : UnicodeDB} {C : Collaborators}.

Record run (A : Type) := Run {
  result : outcome A;
  world_after : World;
  emitted : list event
}.

Definition M (A : Type) : Type := World -> run A.

Definition ret {A} (a : A) : M A := fun w => Run (Returned a) w [].

Definition bind {A B} (m : M A) (k : A -> M B) : M B := fun w =>
  let r := m w in
  match result r with
  | Returned a =>
      let r' := k a (world_after r) in
      Run (result r') (world_after r') (emitted r ++ emitted r')
  | SystemExit code => Run (SystemExit code) (world_after r) (emitted r)
  | Raised => Run Raised (world_after r) (emitted r)
  | OutOfFuel => Run OutOfFuel (world_after r) (emitted r)
  end.

(** The code points standard output can encode: those of ASCII, and the
    others as its encoding has it. *)
Definition encodable (c : char) : bool :=
  if (c <? 128)%N then true else stdout_encodes c.

(** [print(text)]: the text is encoded as a whole before any of it is
    written, so that a text standard output cannot encode raises and
    writes nothing. *)
Definition print (text : str) : M unit := fun w =>
  if forallb encodable text then Run (Returned tt) w [EPrint text]
  else Run Raised w [].

Definition sleep (ms : N) : M unit := fun w => Run (Returned tt) w [ESleep ms].

Definition sys_exit (code : Z) : M unit := fun w => Run (SystemExit code) w [].

Definition out_of_fuel : M unit := fun w => Run OutOfFuel w [].

(** A call of a collaborator, recorded as the event [ev]. *)
Definition call {A} (ev : event) (op : World -> option A * World) : M A := fun w =>
  let (answer, w') := op w in
  Run (match answer with Some a => Returned a | None => Raised end) w' [ev].

End Effects.

Declare Scope py_scope.
Delimit Scope py_scope with py.
Notation "x <- m ;; k" := (bind m (fun x => k))
  (at level 61, m at next level, right associativity) : py_scope.
Notation "m ;; k" := (bind m (fun _ => k))
  (at level 61, right associativity) : py_scope.
Open Scope py_scope.

(** ** The script *)

Section Script.
Context {U : UnicodeDB} {C : Collaborators}.

(** The default of the parameter [voice] of [say]. *)
Definition default_voice : str := py "Samantha".

(** [say], lines 21-28. *)
Definition say (text : str) (voice : str) : M unit :=
  let clean := sanitize text in
  if py_not (strip clean) || (200 <? length clean) then ret tt
  else
    let argv := [py "say"; py "-v"; voice; clean] in
    call (ERun argv) (subprocess_run argv).

(** [for x in xs: body(x)] *)
Fixpoint for_each {A} (xs : list A) (body : A -> M unit) : M unit :=
  match xs with
  | [] => ret tt
  | x :: rest => body x ;; for_each rest body
  end.

(** The body of the [for] loop, lines 53-56. *)
Definition relay (c : ChatItem) : M unit :=
  let author := author_name c in
  let message := message c in
  print (author ++ py ": " ++ message) ;;
  say (friendly_name author ++ py " says: " ++ message) default_voice.

(** The [while] loop, lines 51-58, for at most [fuel] polls. *)
Fixpoint while_alive (fuel : nat) : M unit :=
  match fuel with
  | O => out_of_fuel
  | S fuel' =>
      alive <- call EIsAlive chat_is_alive ;;
      if alive : bool then
        items <- call EGet chat_get ;;
        for_each items relay ;;
        sleep 500 ;;
        while_alive fuel'
      else ret tt
  end.

(** [main], lines 39-60, with [sys.argv] as its argument. *)
Definition main (argv : list str) (fuel : nat) : M unit :=
  if length argv <? 2 then
    print (py "Usage: python youtube_say.py VIDEO_ID") ;;
    print (py "Example: python youtube_say.py dQw4w9WgXcQ") ;;
    sys_exit 1
  else
    let video_id := nth 1 argv [] in
    print (py "Connecting to live chat for video: " ++ video_id) ;;
    call (ECreate video_id) (pytchat_create video_id) ;;
    print (py "Connected! Listening for comments..." ++ [NEWLINE]) ;;
    while_alive fuel ;;
    print (py "Chat ended or stream offline.").

(** [polled n w w' evs]: from the world [w] the session reports alive
    at [n] polls in a row, each batch is fetched and relayed without an
    exception, and the script has then emitted [evs] and left the world
    [w']. *)
Inductive polled : nat -> World -> World -> list event -> Prop :=
| polled_O w : polled 0 w w []
| polled_S n w w1 w2 w' items r evs :
    chat_is_alive w = (Some true, w1) ->
    chat_get w1 = (Some items, w2) ->
    for_each items relay w2 = r ->
    result r = Returned tt ->
    polled n (world_after r) w' evs ->
    polled (S n) w w' (EIsAlive :: EGet :: emitted r ++ ESleep 500 :: evs).

(** [relayed batches w w']: from the world [w] the session reports alive
    at as many polls in a row as there are [batches], these are the
    batches fetched, in order, each is relayed without an exception, and
    the world is then [w']. *)
Inductive relayed : list (list ChatItem) -> World -> World -> Prop :=
| relayed_nil w : relayed [] w w
| relayed_cons items batches w w1 w2 w' :
    chat_is_alive w = (Some true, w1) ->
    chat_get w1 = (Some items, w2) ->
    result (for_each items relay w2) = Returned tt ->
    relayed batches (world_after (for_each items relay w2)) w' ->
    relayed (items :: batches) w w'.

End Script.

(** The events of a trace that fetch a batch, and those that poll. *)
Definition is_get (e : event) : bool :=
  match e with EGet => true | _ => false end.

Definition is_poll (e : event) : bool :=
  match e with EIsAlive => true | _ => false end.

(** The texts printed by a trace, in order. *)
Fixpoint printed (evs : list event) : list str :=
  match evs with
  | [] => []
  | EPrint text :: rest => text :: printed rest
  | _ :: rest => printed rest
  end.

(** The surrogates, U+D800 to U+DFFF, and among them the ones that stand
    for an undecodable byte, U+DC80 to U+DCFF. *)
Definition surrogate (c : char) : bool := ((55296 <=? c) && (c <=? 57343))%N.

Definition escaped_byte (c : char) : bool := ((56448 <=? c) && (c <=? 56575))%N.

(** A standard output in UTF-8: it encodes everything but the surrogates. *)
Definition utf8_encodes (c : char) : bool := negb (surrogate c).

(** What [subprocess.run] can hand over as an argument of a command: a
    text without U+0000 and without a surrogate other than an escaped
    byte; on another text it raises before the command is started. *)
Definition os_encodes (c : char) : bool :=
  negb (c =? 0)%N && (negb (surrogate c) || escaped_byte c).

Definition exec_ok (argv : list str) : bool := forallb (forallb os_encodes) argv.

(** A chat that is scripted in advance, to evaluate the script: the world
    is the list of the batches still to come, the session is alive while
    one is left, the chat calls do not raise, the speech command is
    installed and does not fail, and standard output is in UTF-8. *)
Definition scripted : Collaborators := {|
  World := list (list ChatItem);
  pytchat_create := fun _ w => (Some tt, w);
  chat_is_alive := fun w => (Some (match w with [] => false | _ :: _ => true end), w);
  chat_get := fun w => (Some (hd [] w), tl w);
  subprocess_run := fun argv w => (if exec_ok argv then Some tt else None, w);
  stdout_encodes := utf8_encodes
|}.

(** A chat that cannot be opened: [pytchat.create] raises. *)
Definition offline : Collaborators := {|
  World := unit;
  pytchat_create := fun _ w => (None, w);
  chat_is_alive := fun w => (Some false, w);
  chat_get := fun w => (Some [], w);
  subprocess_run := fun _ w => (Some tt, w);
  stdout_encodes := utf8_encodes
|}.

(** The same chat on a machine without the speech command:
    [subprocess.run] raises at every call. *)
Definition no_say : Collaborators := {|
  World := list (list ChatItem);
  pytchat_create := fun _ w => (Some tt, w);
  chat_is_alive := fun w => (Some (match w with [] => false | _ :: _ => true end), w);
  chat_get := fun w => (Some (hd [] w), tl w);
  subprocess_run := fun _ w => (None, w);
  stdout_encodes := utf8_encodes
|}.

(** The empty script: no batch is to come. *)
Definition quiet : @World scripted := [].

(** *** Vocabulary for the properties of whole batches and whole runs *)

(** The line printed for a chat item, line 55. *)
Definition line (c : ChatItem) : str := author_name c ++ py ": " ++ message c.

(** The text handed to [say] for a chat item, line 56. *)
Definition utterance {U : UnicodeDB} (c : ChatItem) : str :=
  friendly_name (author_name c) ++ py " says: " ++ message c.

(** The argument list of the speech command, line 28. *)
Definition say_argv (voice clean : str) : list str := [py "say"; py "-v"; voice; clean].

(** The utterance of the item passes the length test of line 26. *)
Definition fits {U : UnicodeDB} (c : ChatItem) : bool :=
  length (sanitize (utterance c)) <=? 200.

(** The events of the loop body for a chat item: the line is printed,
    and the utterance is spoken when it fits. *)
Definition relay_events {U : UnicodeDB} (c : ChatItem) : list event :=
  EPrint (line c)
    :: (if fits c then [ERun (say_argv default_voice (sanitize (utterance c)))] else []).

(** The events of one turn of the loop in which the session is alive and
    [batch] is fetched and relayed. *)
Definition turn_events {U : UnicodeDB} (batch : list ChatItem) : list event :=
  EIsAlive :: EGet :: flat_map relay_events batch ++ [ESleep 500].

(** The argument lists of the calls of [subprocess.run] in a trace, in order. *)
Fixpoint spoken (evs : list event) : list (list str) :=
  match evs with
  | [] => []
  | ERun argv :: rest => argv :: spoken rest
  | _ :: rest => spoken rest
  end.

(** The events of the control of the loop: polls, fetches and sleeps. *)
Definition is_control (e : event) : bool :=
  match e with
  | EIsAlive | EGet | ESleep _ => true
  | _ => false
  end.

(** A text fit to be handed to the speech command, and a call of the
    speech command as the script means to make it. *)
Definition speakable {U : UnicodeDB} (clean : str) : Prop :=
  length clean <= 200 /\ strip clean <> []
  /\ ~ In DQUOTE clean /\ ~ In SQUOTE clean /\ ~ In NEWLINE clean.

Definition well_formed_call {U : UnicodeDB} (e : event) : Prop :=
  match e with
  | ERun argv => exists clean : str, argv = say_argv default_voice clean /\ speakable clean
  | _ => True
  end.

(** An item that the scripted machine relays without an exception: its
    line holds no surrogate, and its utterance, if it fits, is a text
    that can be handed to the speech command. *)
Definition relayable {U : UnicodeDB} (c : ChatItem) : bool :=
  forallb (@encodable scripted) (line c)
  && (negb (fits c) || exec_ok (say_argv default_voice (sanitize (utterance c)))).

(** The code points of ASCII. *)
Definition is_ascii (c : char) : bool := (c <? 128)%N.

(** A run of [k] signs @. *)
Definition at_signs (k : nat) : str := repeat 64%N k.

(** ** Properties of the string operations *)

Lemma str_eqb_eq (a b : str) : str_eqb a b = true <-> a = b.
Proof.
  revert b; induction a as [|x a IH]; intros [|y b]; simpl; split;
    try congruence; try reflexivity.
  - intros H. apply andb_true_iff in H as [Hx Hab].
    apply N.eqb_eq in Hx. apply IH in Hab. congruence.
  - intros H. injection H as -> ->.
    rewrite N.eqb_refl. simpl. now apply IH.
Qed.

Lemma in_tuple_In (x : str) (t : list str) : in_tuple x t = true <-> In x t.
Proof.
  unfold in_tuple. rewrite existsb_exists. split.
  - intros (y & Hy & E). apply str_eqb_eq in E. now subst.
  - intros H. exists x. split; [assumption | now apply str_eqb_eq].
Qed.

Lemma replace_flat_map (old : char) (new s : str) :
  replace old new s = flat_map (fun c => if (c =? old)%N then new else [c]) s.
Proof.
  induction s as [|c s IH]; simpl; [reflexivity|].
  destruct (c =? old)%N; simpl; now rewrite IH.
Qed.

Lemma flat_map_flat_map {A B D} (f : A -> list B) (g : B -> list D) (l : list A) :
  flat_map g (flat_map f l) = flat_map (fun a => flat_map g (f a)) l.
Proof.
  induction l as [|a l IH]; simpl; [reflexivity|].
  now rewrite flat_map_app, IH.
Qed.

Lemma sanitize_char_wise (text : str) : sanitize text = flat_map sanitize_char text.
Proof.
  unfold sanitize. rewrite !replace_flat_map, !flat_map_flat_map.
  apply flat_map_ext. intros c. unfold sanitize_char.
  destruct (c =? DQUOTE)%N eqn:Ed; simpl; [reflexivity|].
  destruct (c =? SQUOTE)%N eqn:Es; simpl; [reflexivity|].
  destruct (c =? NEWLINE)%N; reflexivity.
Qed.

Lemma sanitize_app (s t : str) : sanitize (s ++ t) = sanitize s ++ sanitize t.
Proof. rewrite !sanitize_char_wise. apply flat_map_app. Qed.

Lemma In_sanitize (c : char) (text : str) :
  In c (sanitize text) -> c <> DQUOTE /\ c <> SQUOTE /\ c <> NEWLINE.
Proof.
  rewrite sanitize_char_wise, in_flat_map. intros (d & _ & Hc).
  unfold sanitize_char in Hc.
  destruct (d =? DQUOTE)%N eqn:Ed; simpl in Hc; [contradiction|].
  destruct (d =? SQUOTE)%N eqn:Es; simpl in Hc; [contradiction|].
  destruct (d =? NEWLINE)%N eqn:En; simpl in Hc; destruct Hc as [<-|[]].
  - repeat split; discriminate.
  - apply N.eqb_neq in Ed, Es, En. now repeat split.
Qed.

Lemma length_sanitize (text : str) :
  length (sanitize text) + quotes text = length text.
Proof.
  rewrite sanitize_char_wise. unfold quotes.
  induction text as [|c text IH]; simpl; [reflexivity|].
  rewrite length_app. unfold sanitize_char at 1.
  destruct (N.eq_dec c DQUOTE) as [->|Hd]; simpl.
  - destruct (N.eq_dec DQUOTE SQUOTE); [discriminate|]. lia.
  - apply N.eqb_neq in Hd. rewrite Hd. simpl.
    destruct (N.eq_dec c SQUOTE) as [->|Hs]; simpl; [lia|].
    apply N.eqb_neq in Hs. rewrite Hs.
    destruct (c =? NEWLINE)%N; simpl; lia.
Qed.

Lemma length_spec_sanitize_le (text : str) :
  length (spec_sanitize text) <= length (sanitize text).
Proof.
  rewrite sanitize_char_wise. unfold spec_sanitize, sanitize_char.
  induction text as [|c text IH]; simpl; [lia|].
  rewrite length_app.
  destruct (c =? DQUOTE)%N; simpl; [lia|].
  destruct (c =? SQUOTE)%N; simpl; [lia|].
  destruct (c =? NEWLINE)%N; simpl; lia.
Qed.

Section StringProperties.
Context {U : UnicodeDB}.

Lemma length_drop_leading (p : char -> bool) (s : str) :
  length (drop_leading p s) <= length s.
Proof.
  induction s as [|c s IH]; simpl; [lia|].
  destruct (p c); simpl; lia.
Qed.

Lemma length_strip (s : str) : length (strip s) <= length s.
Proof.
  unfold strip, drop_trailing. rewrite length_rev.
  etransitivity; [apply length_drop_leading|].
  rewrite length_rev. apply length_drop_leading.
Qed.

Lemma drop_leading_nil (p : char -> bool) (s : str) :
  drop_leading p s = [] <-> forallb p s = true.
Proof.
  induction s as [|c s IH]; simpl; [tauto|].
  destruct (p c); simpl; [exact IH|].
  split; discriminate.
Qed.

Lemma forallb_rev (p : char -> bool) (s : str) : forallb p (rev s) = forallb p s.
Proof.
  induction s as [|c s IH]; simpl; [reflexivity|].
  rewrite forallb_app, IH. simpl. rewrite andb_true_r. apply andb_comm.
Qed.

(** The trimmed form of a text is empty exactly when the text is made
    of white space only. *)
Lemma strip_nil (s : str) : strip s = [] <-> forallb isspace s = true.
Proof.
  unfold strip, drop_trailing. split.
  - intros H. apply (f_equal (@rev char)) in H. rewrite rev_involutive in H.
    simpl in H. apply drop_leading_nil in H. rewrite forallb_rev in H.
    induction s as [|c s IH]; simpl in *; [reflexivity|].
    destruct (isspace c) eqn:E; simpl in *; [now apply IH|].
    rewrite E in H. discriminate.
  - intros H. apply drop_leading_nil in H. rewrite H. reflexivity.
Qed.

Lemma isspace_sanitize (text : str) :
  forallb isspace (spec_sanitize text) = true ->
  forallb isspace (sanitize text) = true.
Proof.
  rewrite sanitize_char_wise. unfold spec_sanitize, sanitize_char.
  induction text as [|c text IH]; simpl; [reflexivity|].
  rewrite forallb_app.
  destruct (c =? DQUOTE)%N; simpl; [exact IH|].
  destruct (c =? SQUOTE)%N; simpl; [exact IH|].
  destruct (c =? NEWLINE)%N; simpl; [exact IH|].
  intros H. apply andb_true_iff in H as [-> H]. now apply IH.
Qed.

(** Where the form of the specification, with one leading @ removed, is
    one of the two names, it is also what the code computes, with every
    leading @ removed. *)
Lemma lstrip_strip_one_at (s n : str) :
  strip_one_at s = n -> n = py "nu11" \/ n = py "null" -> lstrip (py "@") s = n.
Proof.
  intros E Hn. destruct s as [|c s]; simpl in E.
  - subst n. destruct Hn; discriminate.
  - destruct (c =? 64)%N eqn:Ec.
    + apply N.eqb_eq in Ec. subst c s. destruct Hn; subst n; reflexivity.
    + subst n. destruct Hn as [H|H]; injection H as -> ->; reflexivity.
Qed.

Lemma friendly_name_of_null : friendly_name (py "null") = py "null".
Proof. reflexivity. Qed.

Lemma friendly_name_at_at_null : friendly_name (py "@@null") = py "null".
Proof. reflexivity. Qed.

Lemma friendly_name_cases (author : str) :
  (In (normalized author) [py "nu11"; py "null"] /\ friendly_name author = py "null")
  \/ (~ In (normalized author) [py "nu11"; py "null"] /\ friendly_name author = author).
Proof.
  unfold friendly_name.
  destruct (in_tuple (normalized author) [py "nu11"; py "null"]) eqn:E.
  - left. split; [now apply in_tuple_In | reflexivity].
  - right. split; [|reflexivity].
    intros H. apply in_tuple_In in H. congruence.
Qed.

(** C2 (amended): where the lowercased, trimmed form of the author, with
    every leading @ removed, is neither nu11 nor null, [friendly_name]
    returns the author unchanged; the author @Foo is returned as @Foo. *)
Theorem friendly_name_identity (author : str) :
  normalized author <> py "nu11" ->
  normalized author <> py "null" ->
  friendly_name author = author /\ friendly_name (py "@Foo") = py "@Foo".
Proof.
  intros H1 H2. split; [|reflexivity].
  destruct (friendly_name_cases author) as [[Hin _]|[_ E]]; [|exact E].
  simpl in Hin. intuition congruence.
Qed.

(** C10: [friendly_name] is idempotent. *)
Theorem friendly_name_idempotent (author : str) :
  friendly_name (friendly_name author) = friendly_name author.
Proof.
  destruct (friendly_name_cases author) as [[_ E]|[_ E]]; rewrite E.
  - apply friendly_name_of_null.
  - exact E.
Qed.

(** C4 (amended): [sanitize] removes every double quote and every single
    quote, puts one space in the place of every newline, and leaves every
    other character as it is, in its place. *)
Theorem sanitize_removes_quotes_and_spaces_newlines (text : str) :
  sanitize text =
  flat_map (fun c => if ((c =? DQUOTE) || (c =? SQUOTE))%N then []
                     else if (c =? NEWLINE)%N then [SPACE] else [c]) text.
Proof. apply sanitize_char_wise. Qed.

End StringProperties.

(** The witness of C2, at the author Bob. *)
Lemma friendly_name_identity_witness :
  @friendly_name ascii_only (py "Bob") = py "Bob"
  /\ @friendly_name ascii_only (py "@Foo") = py "@Foo".
Proof.
  apply (@friendly_name_identity ascii_only (py "Bob")); discriminate.
Defined.

(** C2 as the specification words it fails at the author @@null: with
    one leading @ removed its form is @null, neither nu11 nor null, and
    [friendly_name] returns null all the same.  The input is ASCII:
    [friendly_name_at_at_null] has the same result for every database. *)
Lemma friendly_name_not_identity_at_at_null :
  @spec_normalized ascii_only (py "@@null") = py "@null"
  /\ py "@null" <> py "nu11" /\ py "@null" <> py "null"
  /\ @friendly_name ascii_only (py "@@null") = py "null"
  /\ py "null" <> py "@@null".
Proof. repeat split; discriminate. Qed.

(** C4 as the specification words it fails at a text with a newline: the
    newline is not removed, a space takes its place. *)
Lemma sanitize_is_not_removal :
  sanitize [97; NEWLINE; 98]%N = [97; SPACE; 98]%N
  /\ spec_sanitize [97; NEWLINE; 98]%N = [97; 98]%N
  /\ sanitize [97; NEWLINE; 98]%N <> spec_sanitize [97; NEWLINE; 98]%N.
Proof. repeat split; discriminate. Qed.

(** ** Properties of [say] and of the loop body *)

Section SayProperties.
Context {U : UnicodeDB} {C : Collaborators}.

Lemma say_skips (text voice : str) (w : World) :
  py_not (strip (sanitize text)) || (200 <? length (sanitize text)) = true ->
  say text voice w = Run (Returned tt) w [].
Proof. intros H. unfold say. rewrite H. reflexivity. Qed.

Lemma say_runs (text voice : str) (w : World) :
  py_not (strip (sanitize text)) || (200 <? length (sanitize text)) = false ->
  say text voice w =
  call (ERun [py "say"; py "-v"; voice; sanitize text])
       (subprocess_run [py "say"; py "-v"; voice; sanitize text]) w.
Proof. intros H. unfold say. rewrite H. reflexivity. Qed.

Lemma emitted_call {A} (ev : event) (op : World -> option A * World) (w : World) :
  emitted (call ev op w) = [ev].
Proof. unfold call. destruct (op w). reflexivity. Qed.

Lemma py_not_true (s : str) : py_not s = true <-> s = [].
Proof. destruct s; simpl; split; congruence. Qed.

(** [say] emits nothing, or the one call of the speech command. *)
Lemma emitted_say (text voice : str) (w : World) :
  emitted (say text voice w) = []
  \/ emitted (say text voice w) = [ERun [py "say"; py "-v"; voice; sanitize text]].
Proof.
  destruct (py_not (strip (sanitize text)) || (200 <? length (sanitize text))) eqn:E.
  - left. now rewrite say_skips.
  - right. rewrite say_runs by assumption. apply emitted_call.
Qed.

(** C6: where the sanitized text, as [say] computes it or as the
    specification words it, has an empty trimmed form or a trimmed form
    of more than 200 characters, [say] returns normally without calling
    the speech command: nothing is emitted and the world is as before. *)
Theorem say_discards (text voice clean : str) (w : World) :
  clean = sanitize text \/ clean = spec_sanitize text ->
  strip clean = [] \/ 200 < length (strip clean) ->
  say text voice w = Run (Returned tt) w [].
Proof.
  intros Hclean Hskip. apply say_skips. apply orb_true_iff.
  destruct Hskip as [Hempty|Hlong].
  - left. apply py_not_true.
    destruct Hclean as [->| ->]; [assumption|].
    apply strip_nil, isspace_sanitize, strip_nil, Hempty.
  - right. apply Nat.ltb_lt.
    pose proof (length_strip clean) as Hle.
    destruct Hclean as [->| ->]; [lia|].
    pose proof (length_spec_sanitize_le text). lia.
Qed.

(** C7 (amended): where the sanitized text has a nonempty trimmed form
    and is itself, untrimmed, of at most 200 characters, [say] calls the
    speech command once, with the voice and the sanitized text, and ends
    as that call ends. *)
Theorem say_speaks (text voice : str) (w : World) :
  strip (sanitize text) <> [] ->
  length (sanitize text) <= 200 ->
  let argv := [py "say"; py "-v"; voice; sanitize text] in
  emitted (say text voice w) = [ERun argv]
  /\ say text voice w = call (ERun argv) (subprocess_run argv) w.
Proof.
  intros Hne Hlen argv.
  assert (E : py_not (strip (sanitize text)) || (200 <? length (sanitize text)) = false).
  { apply orb_false_iff. split.
    - destruct (strip (sanitize text)); [congruence | reflexivity].
    - apply Nat.ltb_ge. exact Hlen. }
  rewrite (say_runs _ _ _ E). split; [apply emitted_call | reflexivity].
Qed.

(** C5: whenever [say] calls the speech command, the text it hands over
    holds no double quote, no single quote and no newline. *)
Theorem say_hands_over_clean_text (text voice : str) (w : World) (argv : list str) :
  In (ERun argv) (emitted (say text voice w)) ->
  exists clean : str,
    argv = [py "say"; py "-v"; voice; clean]
    /\ ~ In DQUOTE clean /\ ~ In SQUOTE clean /\ ~ In NEWLINE clean.
Proof.
  intros Hin. destruct (emitted_say text voice w) as [E|E]; rewrite E in Hin.
  - contradiction.
  - destruct Hin as [H|[]]. injection H as <-.
    exists (sanitize text). split; [reflexivity|].
    repeat split; intros Hc; apply In_sanitize in Hc; tauto.
Qed.

Lemma print_encodable (text : str) (w : World) :
  forallb encodable text = true -> print text w = Run (Returned tt) w [EPrint text].
Proof. intros H. unfold print. rewrite H. reflexivity. Qed.

Lemma print_unencodable (text : str) (w : World) :
  forallb encodable text = false -> print text w = Run Raised w [].
Proof. intros H. unfold print. rewrite H. reflexivity. Qed.

(** The literals of the script are ASCII; standard output encodes them. *)
Lemma encodable_ascii (text : str) :
  forallb (fun c => (c <? 128)%N) text = true -> forallb encodable text = true.
Proof.
  intros H. apply forallb_forall. intros c Hc.
  unfold encodable. now rewrite (proj1 (forallb_forall _ _) H c Hc).
Qed.

Lemma relay_unfold (c : ChatItem) (w : World) :
  forallb encodable (author_name c ++ py ": " ++ message c) = true ->
  let text := friendly_name (author_name c) ++ py " says: " ++ message c in
  relay c w =
  Run (result (say text default_voice w))
      (world_after (say text default_voice w))
      (EPrint (author_name c ++ py ": " ++ message c)
         :: emitted (say text default_voice w)).
Proof.
  intros H text. unfold relay, bind. cbv zeta.
  rewrite (print_encodable _ w H). reflexivity.
Qed.

Lemma relay_unencodable (c : ChatItem) (w : World) :
  forallb encodable (author_name c ++ py ": " ++ message c) = false ->
  relay c w = Run Raised w [].
Proof.
  intros H. unfold relay, bind. cbv zeta.
  rewrite (print_unencodable _ w H). reflexivity.
Qed.

Lemma relay_returned_encodable (c : ChatItem) (w : World) :
  result (relay c w) = Returned tt ->
  forallb encodable (author_name c ++ py ": " ++ message c) = true.
Proof.
  destruct (forallb encodable (author_name c ++ py ": " ++ message c)) eqn:E;
    [reflexivity|].
  rewrite (relay_unencodable c w E). discriminate.
Qed.

(** C3: where the lowercased, trimmed form of the author with its
    leading @ removed (one, as the specification words it, or all, as the
    code does) is nu11 or null, [friendly_name] returns null; for the
    author Nu11 and the message hello world the line printed keeps Nu11
    and the text spoken starts with null. *)
Theorem friendly_name_null (author n : str) :
  n = spec_normalized author \/ n = normalized author ->
  n = py "nu11" \/ n = py "null" ->
  friendly_name author = py "null"
  /\ forall w : World,
       emitted (relay {| author_name := py "Nu11"; message := py "hello world" |} w)
       = [EPrint (py "Nu11: hello world");
          ERun [py "say"; py "-v"; py "Samantha"; py "null says: hello world"]].
Proof.
  intros Hn Hnull. split.
  - assert (E : normalized author = n).
    { destruct Hn as [->| ->]; [|reflexivity].
      apply lstrip_strip_one_at; [reflexivity | exact Hnull]. }
    destruct (friendly_name_cases author) as [[_ H]|[H _]]; [exact H|].
    exfalso. apply H. rewrite E.
    destruct Hnull as [->| ->]; [left | right; left]; reflexivity.
  - intros w. rewrite relay_unfold by reflexivity. cbn [emitted]. f_equal.
    rewrite say_runs by reflexivity. rewrite emitted_call. reflexivity.
Qed.

End SayProperties.

(** ** Properties of the loop and of [main] *)

Section MainProperties.
Context {U : UnicodeDB} {C : Collaborators}.

Lemma printed_app (xs ys : list event) : printed (xs ++ ys) = printed xs ++ printed ys.
Proof.
  induction xs as [|[] xs IH]; simpl; rewrite ?IH; reflexivity.
Qed.

Lemma printed_relay (c : ChatItem) (w : World) :
  result (relay c w) = Returned tt ->
  printed (emitted (relay c w)) = [author_name c ++ py ": " ++ message c].
Proof.
  intros H. apply relay_returned_encodable in H.
  rewrite relay_unfold by exact H. cbn [emitted printed].
  destruct (emitted_say (friendly_name (author_name c) ++ py " says: " ++ message c)
              default_voice w) as [-> | ->]; reflexivity.
Qed.

(** A batch that is relayed to its end has all its items printed, one
    line an item, in the order of the batch. *)
Lemma printed_for_each_relay (items : list ChatItem) (w : World) :
  result (for_each items relay w) = Returned tt ->
  printed (emitted (for_each items relay w))
  = map (fun c => author_name c ++ py ": " ++ message c) items.
Proof.
  revert w. induction items as [|c items IH]; intros w; [reflexivity|].
  cbn [for_each map]. unfold bind at 1 2.
  destruct (result (relay c w)) as [[]| | |] eqn:E; cbn [result emitted];
    try discriminate.
  intros H. rewrite printed_app, printed_relay, IH by assumption. reflexivity.
Qed.

(** The loop body polls nothing and fetches nothing. *)
Lemma filter_for_each_relay (p : event -> bool) (items : list ChatItem) (w : World) :
  (forall text, p (EPrint text) = false) ->
  (forall argv, p (ERun argv) = false) ->
  filter p (emitted (for_each items relay w)) = [].
Proof.
  intros Hprint Hrun. revert w.
  assert (Hrelay : forall c w, filter p (emitted (relay c w)) = []).
  { intros c w.
    destruct (forallb encodable (author_name c ++ py ": " ++ message c)) eqn:E;
      [|now rewrite relay_unencodable].
    rewrite relay_unfold by exact E. cbn [emitted filter]. rewrite Hprint.
    destruct (emitted_say (friendly_name (author_name c) ++ py " says: " ++ message c)
                default_voice w) as [-> | ->]; cbn [filter]; rewrite ?Hrun; reflexivity. }
  induction items as [|c items IH]; intros w; [reflexivity|].
  cbn [for_each]. unfold bind at 1.
  destruct (result (relay c w)); cbn [emitted]; rewrite ?filter_app, ?IH, ?Hrelay;
    reflexivity.
Qed.

Lemma polled_counts (n : nat) (w w' : World) (evs : list event) :
  polled n w w' evs ->
  length (filter is_get evs) = n /\ length (filter is_poll evs) = n.
Proof.
  induction 1 as [|n w w1 w2 w' items r evs Halive Hget Hr Hres Hrest [IHg IHp]].
  - split; reflexivity.
  - subst r. cbn [filter is_get is_poll length].
    rewrite !filter_app, !length_app, !filter_for_each_relay by reflexivity.
    cbn [filter is_get is_poll length]. split; lia.
Qed.

Lemma bind_returned {A B} (m : M A) (k : A -> M B) (w w1 : World) (a : A)
    (evs : list event) :
  m w = Run (Returned a) w1 evs ->
  bind m k w = Run (result (k a w1)) (world_after (k a w1)) (evs ++ emitted (k a w1)).
Proof. intros H. unfold bind. rewrite H. reflexivity. Qed.

Lemma call_answers {A} (ev : event) (op : World -> option A * World)
    (w w' : World) (a : A) :
  op w = (Some a, w') -> call ev op w = Run (Returned a) w' [ev].
Proof. intros H. unfold call. rewrite H. reflexivity. Qed.

Lemma run_returned {A} (r : run A) (a : A) :
  result r = Returned a -> r = Run (Returned a) (world_after r) (emitted r).
Proof. destruct r. cbn. now intros ->. Qed.

(** One step through a [bind] whose first part returns; [tac] shows that
    it does. *)
Ltac step_bind tac := erewrite bind_returned; [|tac]; cbv beta iota.

(** At a poll where the session reports that it is not alive the loop
    ends, whatever fuel is left, and fetches nothing. *)
Lemma while_alive_not_alive (fuel : nat) (w w' : World) :
  chat_is_alive w = (Some false, w') ->
  while_alive (S fuel) w = Run (Returned tt) w' [EIsAlive].
Proof.
  intros H. cbn [while_alive]. unfold bind, call. rewrite H. reflexivity.
Qed.

Lemma while_alive_alive (fuel : nat) (w w1 w2 : World) (items : list ChatItem) :
  chat_is_alive w = (Some true, w1) ->
  chat_get w1 = (Some items, w2) ->
  result (for_each items relay w2) = Returned tt ->
  let r := for_each items relay w2 in
  let r' := while_alive fuel (world_after r) in
  while_alive (S fuel) w
  = Run (result r') (world_after r')
        (EIsAlive :: EGet :: emitted r ++ ESleep 500 :: emitted r').
Proof.
  intros Halive Hget Hres r r'. cbn [while_alive].
  step_bind ltac:(apply call_answers; exact Halive).
  step_bind ltac:(apply call_answers; exact Hget).
  step_bind ltac:(apply run_returned; exact Hres).
  step_bind ltac:(reflexivity).
  fold r r'. cbn [result world_after emitted app]. reflexivity.
Qed.

(** Enough fuel takes the loop to the poll where the session is not
    alive any more. *)
Lemma while_alive_polled (n : nat) (w wn w' : World) (evs : list event) :
  polled n w wn evs ->
  chat_is_alive wn = (Some false, w') ->
  forall fuel, n < fuel ->
  while_alive fuel w = Run (Returned tt) w' (evs ++ [EIsAlive]).
Proof.
  induction 1 as [|n w w1 w2 wn items r evs Halive Hget Hr Hres Hrest IH];
    intros Hdead fuel Hfuel; (destruct fuel as [|fuel]; [lia|]).
  - now apply while_alive_not_alive.
  - subst r. rewrite (while_alive_alive _ _ Halive Hget Hres).
    rewrite (IH Hdead fuel) by lia. cbn [result world_after emitted].
    rewrite <- !app_comm_cons, <- app_assoc. reflexivity.
Qed.

(** The first banner can be printed when the video identifier can. *)
Lemma encodable_connecting (video_id : str) :
  forallb encodable video_id = true ->
  forallb encodable (py "Connecting to live chat for video: " ++ video_id) = true.
Proof. intros H. rewrite forallb_app, H. reflexivity. Qed.

(** C8: called without the video identifier, [main] prints the two usage
    lines and nothing else, exits with status 1, and does not open a chat
    session: it calls no collaborator and leaves the world as it was. *)
Theorem main_usage (argv : list str) (fuel : nat) (w : World) :
  length argv < 2 ->
  main argv fuel w
  = Run (SystemExit 1) w
      [EPrint (py "Usage: python youtube_say.py VIDEO_ID");
       EPrint (py "Example: python youtube_say.py dQw4w9WgXcQ")]
  /\ exit_status (result (main argv fuel w)) = Some 1%Z
  /\ length (printed (emitted (main argv fuel w))) = 2
  /\ forall video_id, ~ In (ECreate video_id) (emitted (main argv fuel w)).
Proof.
  intros Hlen. apply Nat.ltb_lt in Hlen.
  assert (E : main argv fuel w
              = Run (SystemExit 1) w
                  [EPrint (py "Usage: python youtube_say.py VIDEO_ID");
                   EPrint (py "Example: python youtube_say.py dQw4w9WgXcQ")]).
  { unfold main. rewrite Hlen. reflexivity. }
  rewrite E. repeat split.
  intros video_id [H|[H|[]]]; discriminate.
Qed.

(** C9: when the session, opened for a video identifier that standard
    output can print, reports after [n] polls at which it was alive that
    it is not, [main] run with fuel for more than [n] polls stops at that
    poll: it fetches no further batch, prints the notice that the chat
    has ended and returns, so that the exit status is 0. *)
Theorem main_returns_when_not_alive
    (argv : list str) (fuel n : nat) (w0 w1 wn w' : World) (evs : list event) :
  2 <= length argv ->
  forallb encodable (nth 1 argv []) = true ->
  pytchat_create (nth 1 argv []) w0 = (Some tt, w1) ->
  polled n w1 wn evs ->
  chat_is_alive wn = (Some false, w') ->
  n < fuel ->
  let r := main argv fuel w0 in
  result r = Returned tt
  /\ exit_status (result r) = Some 0%Z
  /\ world_after r = w'
  /\ emitted r
     = [EPrint (py "Connecting to live chat for video: " ++ nth 1 argv []);
        ECreate (nth 1 argv []);
        EPrint (py "Connected! Listening for comments..." ++ [NEWLINE])]
       ++ evs ++ [EIsAlive; EPrint (py "Chat ended or stream offline.")]
  /\ length (filter is_get (emitted r)) = n
  /\ length (filter is_poll (emitted r)) = S n.
Proof.
  intros Hargv Henc Hcreate Hpolled Hdead Hfuel r.
  assert (E : r = Run (Returned tt) w'
                ([EPrint (py "Connecting to live chat for video: " ++ nth 1 argv []);
                  ECreate (nth 1 argv []);
                  EPrint (py "Connected! Listening for comments..." ++ [NEWLINE])]
                 ++ evs ++ [EIsAlive; EPrint (py "Chat ended or stream offline.")])).
  { subst r. unfold main.
    apply Nat.ltb_ge in Hargv. rewrite Hargv.
    step_bind ltac:(apply print_encodable, encodable_connecting, Henc).
    step_bind ltac:(apply call_answers; exact Hcreate).
    step_bind ltac:(reflexivity).
    step_bind ltac:(apply (while_alive_polled Hpolled Hdead); exact Hfuel).
    cbn [result world_after emitted print app].
    rewrite <- app_assoc. reflexivity. }
  rewrite E. cbn [result world_after emitted exit_status].
  destruct (polled_counts Hpolled) as [Hg Hp].
  repeat split.
  - rewrite !filter_app, !length_app. cbn. rewrite Hg. lia.
  - rewrite !filter_app, !length_app. cbn. rewrite Hp. lia.
Qed.

End MainProperties.

(** ** The properties at concrete inputs

    The inputs are ASCII and the chat is [scripted], so that every term
    below evaluates. *)

Section Examples.
#[local] Existing Instance ascii_only.
#[local] Existing Instance scripted.

(** The witness of C3, at the author Nu11. *)
Lemma friendly_name_null_witness :
  spec_normalized (py "Nu11") = py "nu11"
  /\ friendly_name (py "Nu11") = py "null".
Proof.
  split; [reflexivity|].
  refine (proj1 (@friendly_name_null ascii_only scripted (py "Nu11") (py "nu11") _ _));
    [left; reflexivity | left; reflexivity].
Defined.

(** The witness of C5, at the text hi. *)
Lemma say_hands_over_clean_text_witness :
  In (ERun [py "say"; py "-v"; py "Samantha"; py "hi"])
     (emitted (say (py "hi") default_voice quiet))
  /\ exists clean : str,
       [py "say"; py "-v"; py "Samantha"; py "hi"]
       = [py "say"; py "-v"; default_voice; clean]
       /\ ~ In DQUOTE clean /\ ~ In SQUOTE clean /\ ~ In NEWLINE clean.
Proof.
  split; [left; reflexivity|].
  apply (@say_hands_over_clean_text ascii_only scripted (py "hi") default_voice quiet).
  left; reflexivity.
Defined.

(** The witness of C6, at a text of two newlines. *)
Lemma say_discards_witness :
  strip (spec_sanitize [NEWLINE; NEWLINE]) = []
  /\ say [NEWLINE; NEWLINE] default_voice quiet = Run (Returned tt) quiet [].
Proof.
  split; [reflexivity|].
  apply (@say_discards ascii_only scripted [NEWLINE; NEWLINE] default_voice
           (spec_sanitize [NEWLINE; NEWLINE]) quiet);
    [right; reflexivity | left; reflexivity].
Defined.

(** The witness of C7, at the text hi. *)
Lemma say_speaks_witness :
  strip (sanitize (py "hi")) <> []
  /\ length (sanitize (py "hi")) <= 200
  /\ emitted (say (py "hi") default_voice quiet)
     = [ERun [py "say"; py "-v"; default_voice; py "hi"]].
Proof.
  split; [discriminate|]. split; [vm_compute; lia|].
  refine (proj1 (@say_speaks ascii_only scripted (py "hi") default_voice quiet _ _));
    [discriminate | vm_compute; lia].
Defined.

(** C7 as the specification words it fails at the letter a followed by
    200 spaces: the trimmed form is the letter alone, the text has 201
    characters, and nothing is spoken. *)
Lemma say_silent_for_trailing_spaces :
  let text := py "a" ++ repeat SPACE 200 in
  strip (sanitize text) = py "a"
  /\ length (strip (sanitize text)) <= 200
  /\ say text default_voice quiet = Run (Returned tt) quiet [].
Proof. intros text. split; [reflexivity|]. split; [vm_compute; lia | reflexivity]. Qed.

(** The witness of C8: [sys.argv] holds the name of the script only. *)
Lemma main_usage_witness :
  length [py "youtube_say.py"] < 2
  /\ exit_status (result (main [py "youtube_say.py"] 0 quiet)) = Some 1%Z.
Proof.
  split; [vm_compute; lia|].
  refine (proj1 (proj2 (@main_usage ascii_only scripted [py "youtube_say.py"] 0 quiet _))).
  vm_compute; lia.
Defined.

(** The witness of C9: one batch of one message, then the chat ends. *)
Lemma main_returns_when_not_alive_witness :
  let argv := [py "youtube_say.py"; py "dQw4w9WgXcQ"] in
  let w0 := [[{| author_name := py "Nu11"; message := py "hello world" |}]] in
  result (main argv 2 w0) = Returned tt
  /\ exit_status (result (main argv 2 w0)) = Some 0%Z
  /\ length (filter is_get (emitted (main argv 2 w0))) = 1.
Proof.
  intros argv w0.
  refine (let H := @main_returns_when_not_alive ascii_only scripted argv 2 1
                     w0 w0 quiet quiet _ _ _ _ _ _ _ in
          conj (proj1 H) (conj (proj1 (proj2 H)) (proj1 (proj2 (proj2 (proj2 (proj2 H))))))).
  - vm_compute; lia.
  - reflexivity.
  - reflexivity.
  - eapply polled_S; [reflexivity | reflexivity | reflexivity | reflexivity | apply polled_O].
  - reflexivity.
  - lia.
Defined.

End Examples.

(** ** Further properties of the string functions *)

Section MoreStringProperties.
Context {U : UnicodeDB}.

Lemma sanitize_char_twice (c : char) :
  flat_map sanitize_char (sanitize_char c) = sanitize_char c.
Proof.
  unfold sanitize_char at 2 3.
  destruct (c =? DQUOTE)%N eqn:Ed; simpl; [reflexivity|].
  destruct (c =? SQUOTE)%N eqn:Es; simpl; [reflexivity|].
  destruct (c =? NEWLINE)%N eqn:En; simpl; [reflexivity|].
  unfold sanitize_char. rewrite Ed, Es, En. reflexivity.
Qed.

(** X3: sanitizing a sanitized text changes nothing. *)
Theorem sanitize_idempotent (text : str) : sanitize (sanitize text) = sanitize text.
Proof.
  rewrite !sanitize_char_wise, flat_map_flat_map.
  apply flat_map_ext. intros c. apply sanitize_char_twice.
Qed.

Lemma forallb_false (p : char -> bool) (s : str) :
  forallb p s = false <-> exists c, In c s /\ p c = false.
Proof.
  induction s as [|x s IH]; simpl.
  - split; [discriminate | intros (c & [] & _)].
  - rewrite andb_false_iff, IH. split.
    + intros [H|(c & Hin & Hc)]; [exists x | exists c]; auto.
    + intros (c & [->|Hin] & Hc); [left | right; exists c]; auto.
Qed.

Lemma isspace_NEWLINE : isspace NEWLINE = true.
Proof. reflexivity. Qed.

(** The sanitized text is blank exactly when the text holds only white
    space and quotes. *)
Lemma forallb_isspace_sanitize (text : str) :
  forallb isspace (sanitize text)
  = forallb (fun c => (c =? DQUOTE)%N || (c =? SQUOTE)%N || isspace c) text.
Proof.
  rewrite sanitize_char_wise.
  induction text as [|c text IH]; simpl; [reflexivity|].
  rewrite forallb_app, IH. unfold sanitize_char.
  destruct (c =? DQUOTE)%N eqn:Ed; simpl; [reflexivity|].
  destruct (c =? SQUOTE)%N eqn:Es; simpl; [reflexivity|].
  destruct (c =? NEWLINE)%N eqn:En; simpl.
  - apply N.eqb_eq in En. subst c. rewrite isspace_NEWLINE. reflexivity.
  - rewrite andb_true_r. reflexivity.
Qed.

Lemma strip_not_nil (s : str) : strip s <> [] <-> forallb isspace s = false.
Proof.
  rewrite strip_nil. destruct (forallb isspace s); split; congruence.
Qed.

Lemma ascii_whitespace_small (c : char) : ascii_whitespace c = true -> (c <= 32)%N.
Proof.
  unfold ascii_whitespace. rewrite !orb_true_iff, !andb_true_iff, !N.leb_le, N.eqb_eq. lia.
Qed.

Lemma isspace_ascii_whitespace (c : char) : ascii_whitespace c = true -> isspace c = true.
Proof.
  intros H. unfold isspace.
  apply ascii_whitespace_small in H as Hc.
  destruct (N.ltb_spec c 128); [exact H | lia].
Qed.

Lemma ascii_tolower_whitespace (c : char) : ascii_whitespace c = true -> ascii_tolower c = c.
Proof.
  intros H. apply ascii_whitespace_small in H. unfold ascii_tolower.
  destruct (N.leb_spec 65 c); [lia | reflexivity].
Qed.

Lemma ascii_tolower_is_ascii (c : char) :
  is_ascii (ascii_tolower c) = true -> is_ascii c = true.
Proof.
  unfold is_ascii, ascii_tolower.
  destruct (N.leb_spec 65 c), (N.leb_spec c 90); simpl; rewrite !N.ltb_lt; lia.
Qed.

(** On an ASCII text [lower] works character by character. *)
Lemma do_lower_ascii (data : str) (i : nat) (s : str) :
  forallb is_ascii s = true -> do_lower data i s = map ascii_tolower s.
Proof.
  revert i. induction s as [|c s IH]; intros i H; simpl in *; [reflexivity|].
  apply andb_true_iff in H as [Hc Hs]. unfold is_ascii in Hc. rewrite Hc.
  simpl. now rewrite IH.
Qed.

Lemma lower_ascii (s : str) : forallb is_ascii s = true -> lower s = map ascii_tolower s.
Proof. apply do_lower_ascii. Qed.

Lemma drop_leading_app (p : char -> bool) (pre s : str) :
  forallb p pre = true -> drop_leading p (pre ++ s) = drop_leading p s.
Proof.
  induction pre as [|c pre IH]; simpl; [reflexivity|].
  intros H. apply andb_true_iff in H as [-> H]. now apply IH.
Qed.

Lemma drop_trailing_app (p : char -> bool) (s post : str) :
  forallb p post = true -> drop_trailing p (s ++ post) = drop_trailing p s.
Proof.
  intros H. unfold drop_trailing. rewrite rev_app_distr, drop_leading_app; [reflexivity|].
  now rewrite forallb_rev.
Qed.

Lemma lstrip_ats (k : nat) (s : str) :
  lstrip (py "@") (at_signs k ++ s) = lstrip (py "@") s.
Proof. unfold at_signs. induction k as [|k IH]; simpl; [reflexivity | exact IH]. Qed.

(** The two names, with [k] leading @, are their own trimmed form. *)
Lemma strip_ats_name (k : nat) (target post : str) :
  target = py "nu11" \/ target = py "null" ->
  forallb isspace post = true ->
  strip (at_signs k ++ target ++ post) = at_signs k ++ target.
Proof.
  intros Ht Hpost. unfold strip.
  assert (E : drop_leading isspace (at_signs k ++ target ++ post)
              = at_signs k ++ target ++ post).
  { destruct k; destruct Ht; subst target; reflexivity. }
  rewrite E, app_assoc, drop_trailing_app by exact Hpost.
  unfold drop_trailing. rewrite rev_app_distr.
  assert (E' : drop_leading isspace (rev target ++ rev (at_signs k))
               = rev target ++ rev (at_signs k)).
  { destruct Ht; subst target; reflexivity. }
  etransitivity; [apply f_equal; exact E'|].
  rewrite rev_app_distr, !rev_involutive. reflexivity.
Qed.

(** X8: an author written as null or nu11 in any mix of upper and lower
    case, after any number of @ signs, with any ASCII white space before
    and after, gets the friendly name null. *)
Theorem friendly_name_decorated (pre post name : str) (k : nat) :
  forallb ascii_whitespace pre = true ->
  forallb ascii_whitespace post = true ->
  map ascii_tolower name = py "nu11" \/ map ascii_tolower name = py "null" ->
  friendly_name (pre ++ at_signs k ++ name ++ post) = py "null".
Proof.
  intros Hpre Hpost Hname.
  assert (Hws : forall s, forallb ascii_whitespace s = true ->
                  forallb is_ascii s = true /\ map ascii_tolower s = s
                  /\ forallb isspace s = true).
  { induction s as [|c s IH]; simpl; [auto|].
    intros H. apply andb_true_iff in H as [Hc Hs].
    destruct (IH Hs) as (IH1 & IH2 & IH3).
    rewrite IH1, IH2, IH3, (ascii_tolower_whitespace _ Hc), (isspace_ascii_whitespace _ Hc).
    apply ascii_whitespace_small in Hc. unfold is_ascii.
    destruct (N.ltb_spec c 128); [auto | lia]. }
  destruct (Hws pre Hpre) as (Apre & Lpre & Spre).
  destruct (Hws post Hpost) as (Apost & Lpost & Spost).
  assert (Aname : forallb is_ascii name = true).
  { apply forallb_forall. intros c Hc. apply ascii_tolower_is_ascii.
    assert (Hin : In (ascii_tolower c) (map ascii_tolower name)) by now apply in_map.
    destruct Hname as [E|E]; rewrite E in Hin; simpl in Hin;
      repeat (destruct Hin as [<-|Hin]; [reflexivity|]); contradiction. }
  set (ats := at_signs k).
  assert (Aats : forallb is_ascii ats = true /\ map ascii_tolower ats = ats).
  { subst ats. unfold at_signs.
    induction k as [|k [IH1 IH2]]; simpl; [auto|]. rewrite IH1, IH2. auto. }
  destruct Aats as [Aats Lats].
  set (target := map ascii_tolower name) in *.
  assert (Hnorm : normalized (pre ++ ats ++ name ++ post) = target).
  { unfold normalized. rewrite lower_ascii.
    2:{ rewrite !forallb_app, Apre, Aats, Aname, Apost. reflexivity. }
    rewrite !map_app, Lpre, Lats, Lpost. fold target.
    unfold strip at 1. rewrite drop_leading_app by exact Spre.
    fold (strip (ats ++ target ++ post)). subst ats.
    rewrite strip_ats_name by assumption.
    rewrite lstrip_ats. destruct Hname as [-> | ->]; reflexivity. }
  unfold friendly_name. rewrite Hnorm.
  destruct Hname as [-> | ->]; reflexivity.
Qed.

End MoreStringProperties.

(** ** Further properties of [say] and of the loop body *)

Section MoreSayProperties.
Context {U : UnicodeDB} {C : Collaborators}.

Lemma say_test_false (text : str) :
  py_not (strip (sanitize text)) || (200 <? length (sanitize text)) = false
  <-> strip (sanitize text) <> [] /\ length (sanitize text) <= 200.
Proof.
  rewrite orb_false_iff, Nat.ltb_ge.
  destruct (strip (sanitize text)); simpl; intuition congruence.
Qed.

(** X5: [say] calls the speech command, and ends as that call ends,
    for the texts that have at most 200 characters besides their quotes
    and hold a character that is neither white space nor a quote; for
    every other text it returns without a call, nothing emitted and the
    world unchanged. *)
Theorem say_speaks_exactly (text voice : str) (w : World) :
  let passes := length text - quotes text <= 200
                /\ exists c : char,
                     In c text /\ c <> DQUOTE /\ c <> SQUOTE /\ isspace c = false in
  (passes ->
   say text voice w
   = call (ERun (say_argv voice (sanitize text)))
          (subprocess_run (say_argv voice (sanitize text))) w)
  /\ (~ passes -> say text voice w = Run (Returned tt) w []).
Proof.
  intros passes.
  assert (Hblank : strip (sanitize text) <> []
                   <-> exists c, In c text /\ c <> DQUOTE /\ c <> SQUOTE /\ isspace c = false).
  { rewrite strip_not_nil, forallb_isspace_sanitize, forallb_false.
    split; intros (c & Hin & Hc); exists c; (split; [exact Hin|]).
    - rewrite !orb_false_iff, !N.eqb_neq in Hc. tauto.
    - rewrite !orb_false_iff, !N.eqb_neq. tauto. }
  pose proof (length_sanitize text) as Hlen.
  assert (Hpasses : passes
                    <-> py_not (strip (sanitize text)) || (200 <? length (sanitize text))
                        = false).
  { rewrite say_test_false, Hblank. unfold passes. split; intros [H1 H2]; split;
      auto; lia. }
  split; intros H.
  - apply say_runs, Hpasses, H.
  - apply say_skips. rewrite Hpasses in H.
    destruct (py_not (strip (sanitize text)) || (200 <? length (sanitize text)));
      congruence.
Qed.

(** The utterance of a chat item is never blank: the word says is in it. *)
Lemma utterance_not_blank (c : ChatItem) : strip (sanitize (utterance c)) <> [].
Proof.
  apply strip_not_nil. unfold utterance. rewrite !sanitize_app, !forallb_app.
  change (forallb isspace (sanitize (py " says: "))) with false.
  simpl. apply andb_false_r.
Qed.

Lemma say_utterance (c : ChatItem) (w : World) :
  say (utterance c) default_voice w
  = if fits c
    then call (ERun (say_argv default_voice (sanitize (utterance c))))
              (subprocess_run (say_argv default_voice (sanitize (utterance c)))) w
    else Run (Returned tt) w [].
Proof.
  unfold fits. destruct (Nat.leb_spec (length (sanitize (utterance c))) 200) as [H|H].
  - apply say_runs, say_test_false. split; [apply utterance_not_blank | exact H].
  - apply say_skips. apply orb_true_iff. right. now apply Nat.ltb_lt.
Qed.

(** The loop body on an item whose line can be printed. *)
Lemma relay_printable (c : ChatItem) (w : World) :
  forallb encodable (line c) = true ->
  let argv := say_argv default_voice (sanitize (utterance c)) in
  relay c w
  = if fits c
    then Run (match fst (subprocess_run argv w) with
              | Some _ => Returned tt
              | None => Raised
              end)
             (snd (subprocess_run argv w)) [EPrint (line c); ERun argv]
    else Run (Returned tt) w [EPrint (line c)].
Proof.
  intros H argv. rewrite relay_unfold by exact H. fold (utterance c) (line c).
  rewrite say_utterance. fold argv. unfold call.
  destruct (fits c); [|reflexivity].
  destruct (subprocess_run argv w) as [[[]|] w1]; reflexivity.
Qed.

Lemma emitted_relay (c : ChatItem) (w : World) :
  emitted (relay c w) = if forallb encodable (line c) then relay_events c else [].
Proof.
  destruct (forallb encodable (line c)) eqn:E.
  - rewrite relay_printable by exact E. unfold relay_events.
    destruct (fits c); reflexivity.
  - now rewrite relay_unencodable.
Qed.

Lemma emitted_relay_returned (c : ChatItem) (w : World) :
  result (relay c w) = Returned tt -> emitted (relay c w) = relay_events c.
Proof.
  intros H. apply relay_returned_encodable in H. fold (line c) in H.
  now rewrite emitted_relay, H.
Qed.

(** X6: the loop body, case by case.  Where standard output cannot
    encode the line, [print] raises: nothing is printed and nothing is
    spoken.  Otherwise the line is printed, and then the speech command
    is called with the sanitized utterance exactly when that has at most
    200 characters (an item is never dropped for being blank), the loop
    body ending as that call ends; an item that does not fit is printed
    only, and the world is unchanged. *)
Theorem relay_speaks_when_it_fits (c : ChatItem) (w : World) :
  let argv := say_argv default_voice (sanitize (utterance c)) in
  relay c w
  = if forallb encodable (line c)
    then if fits c
         then Run (match fst (subprocess_run argv w) with
                   | Some _ => Returned tt
                   | None => Raised
                   end)
                  (snd (subprocess_run argv w)) [EPrint (line c); ERun argv]
         else Run (Returned tt) w [EPrint (line c)]
    else Run Raised w [].
Proof.
  intros argv. destruct (forallb encodable (line c)) eqn:E.
  - now apply relay_printable.
  - now apply relay_unencodable.
Qed.

End MoreSayProperties.

(** ** Further properties of batches, of the loop and of [main] *)

Section MoreMainProperties.
Context {U : UnicodeDB} {C : Collaborators}.

Lemma spoken_app (xs ys : list event) : spoken (xs ++ ys) = spoken xs ++ spoken ys.
Proof.
  induction xs as [|[] xs IH]; simpl; rewrite ?IH; reflexivity.
Qed.

Lemma printed_relay_events (items : list ChatItem) :
  printed (flat_map relay_events items) = map line items.
Proof.
  induction items as [|c items IH]; simpl; [reflexivity|].
  rewrite printed_app, IH. destruct (fits c); reflexivity.
Qed.

Lemma spoken_relay_events (items : list ChatItem) :
  spoken (flat_map relay_events items)
  = map (fun c => say_argv default_voice (sanitize (utterance c))) (filter fits items).
Proof.
  induction items as [|c items IH]; simpl; [reflexivity|].
  rewrite spoken_app, IH. destruct (fits c); reflexivity.
Qed.

Lemma bind_returned_inv {A B} (m : M A) (k : A -> M B) (w : World) (b : B) :
  result (bind m k w) = Returned b ->
  exists a : A,
    result (m w) = Returned a
    /\ result (k a (world_after (m w))) = Returned b
    /\ world_after (bind m k w) = world_after (k a (world_after (m w)))
    /\ emitted (bind m k w) = emitted (m w) ++ emitted (k a (world_after (m w))).
Proof.
  unfold bind. cbv zeta. destruct (result (m w)) as [a| | |]; cbn; try discriminate.
  intros H. exists a. auto.
Qed.

Lemma bind_not_returned {A B} (m : M A) (k : A -> M B) (w : World) :
  (forall a, result (m w) <> Returned a) ->
  emitted (bind m k w) = emitted (m w)
  /\ (forall b, result (bind m k w) <> Returned b)
  /\ (result (bind m k w) = Raised -> result (m w) = Raised).
Proof.
  unfold bind. cbv zeta. intros H.
  destruct (result (m w)) as [a| | |]; cbn; [now destruct (H a) | | |];
    repeat split; try discriminate; auto.
Qed.

Lemma call_returned_inv {A} (ev : event) (op : World -> option A * World)
    (w : World) (a : A) :
  result (call ev op w) = Returned a ->
  op w = (Some a, world_after (call ev op w)) /\ emitted (call ev op w) = [ev].
Proof.
  unfold call. destruct (op w) as [[a'|] w']; cbn; [|discriminate].
  intros H. injection H as ->. auto.
Qed.

(** A batch relayed to its end has emitted the events of all its items. *)
Lemma for_each_relay_returned (items : list ChatItem) (w : World) :
  result (for_each items relay w) = Returned tt ->
  emitted (for_each items relay w) = flat_map relay_events items.
Proof.
  revert w. induction items as [|c items IH]; intros w H; [reflexivity|].
  cbn [for_each flat_map] in *.
  apply bind_returned_inv in H as ([] & Hc & Hrest & _ & ->).
  rewrite (emitted_relay_returned _ _ Hc), (IH _ Hrest). reflexivity.
Qed.

(** X1: whatever happens while a batch is relayed, what has been emitted
    is what a prefix of the batch emits, item after item in the order of
    the batch, the line of an item before its speech; the prefix is the
    whole batch when the loop over it comes to its end. *)
Theorem for_each_relay_prefix (items : list ChatItem) (w : World) :
  exists n : nat,
    n <= length items
    /\ emitted (for_each items relay w) = flat_map relay_events (firstn n items)
    /\ printed (emitted (for_each items relay w)) = map line (firstn n items)
    /\ (result (for_each items relay w) = Returned tt -> n = length items).
Proof.
  cut (exists n : nat,
          n <= length items
          /\ emitted (for_each items relay w) = flat_map relay_events (firstn n items)
          /\ (result (for_each items relay w) = Returned tt -> n = length items)).
  { intros (n & Hn & He & Hr). exists n. rewrite He, printed_relay_events. auto. }
  revert w. induction items as [|c items IH]; intros w.
  - exists 0. repeat split; reflexivity || lia.
  - cbn [for_each].
    assert (Hstop : (forall u, result (relay c w) <> Returned u) ->
              exists n, n <= length (c :: items)
                /\ emitted (bind (relay c) (fun _ => for_each items relay) w)
                   = flat_map relay_events (firstn n (c :: items))
                /\ (result (bind (relay c) (fun _ => for_each items relay) w) = Returned tt
                    -> n = length (c :: items))).
    { intros Hne.
      destruct (bind_not_returned (relay c) (fun _ => for_each items relay) w Hne)
        as (He & Hr & _).
      rewrite He, emitted_relay.
      destruct (forallb encodable (line c)); [exists 1 | exists 0];
        cbn [firstn flat_map length]; rewrite ?app_nil_r;
        (repeat split; [lia|]); intros H; now destruct (Hr tt). }
    destruct (result (relay c w)) as [[]| | |] eqn:E;
      try (apply Hstop; discriminate).
    destruct (IH (world_after (relay c w))) as (n & Hn & He & Hr).
    exists (S n). unfold bind. cbv zeta. rewrite E.
    cbn [result emitted firstn flat_map length].
    rewrite (emitted_relay_returned _ _ E), He. repeat split; [lia|].
    intros H. now rewrite Hr.
Qed.

Lemma Forall_emitted_bind {A B} (P : event -> Prop) (m : M A) (k : A -> M B)
    (w : World) :
  Forall P (emitted (m w)) ->
  (forall a w', Forall P (emitted (k a w'))) ->
  Forall P (emitted (bind m k w)).
Proof.
  intros Hm Hk. unfold bind. cbv zeta.
  destruct (result (m w)); cbn; auto. apply Forall_app. auto.
Qed.

Lemma well_formed_print (text : str) (w : World) :
  Forall well_formed_call (emitted (print text w)).
Proof. unfold print. destruct (forallb encodable text); repeat constructor. Qed.

Lemma well_formed_relay (c : ChatItem) (w : World) :
  Forall well_formed_call (emitted (relay c w)).
Proof.
  rewrite emitted_relay. destruct (forallb encodable (line c)); [|constructor].
  unfold relay_events.
  constructor; [exact I|]. destruct (fits c) eqn:F; constructor; [|constructor].
  exists (sanitize (utterance c)). split; [reflexivity|].
  unfold fits in F. apply Nat.leb_le in F.
  split; [exact F|]. split; [apply utterance_not_blank|].
  repeat split; intros Hc; apply In_sanitize in Hc; tauto.
Qed.

Lemma well_formed_for_each (items : list ChatItem) (w : World) :
  Forall well_formed_call (emitted (for_each items relay w)).
Proof.
  revert w. induction items as [|c items IH]; intros w; [constructor|].
  cbn [for_each]. apply Forall_emitted_bind; [apply well_formed_relay | auto].
Qed.

Lemma well_formed_while (fuel : nat) (w : World) :
  Forall well_formed_call (emitted (while_alive fuel w)).
Proof.
  revert w. induction fuel as [|fuel IH]; intros w; [constructor|].
  cbn [while_alive]. apply Forall_emitted_bind.
  { rewrite emitted_call. repeat constructor. }
  intros [] w1; [|constructor].
  apply Forall_emitted_bind; [rewrite emitted_call; repeat constructor|].
  intros items w2. apply Forall_emitted_bind; [apply well_formed_for_each|].
  intros _ w3. apply Forall_emitted_bind; [repeat constructor | auto].
Qed.

(** X4: in every run of [main], whatever its arguments, the answers of
    the collaborators and its end, each call of [subprocess.run] has the
    arguments say, -v, Samantha and a text of at most 200 characters that
    is not blank and holds no quote and no newline. *)
Theorem main_speech_calls_well_formed (argv : list str) (fuel : nat) (w : World) :
  Forall well_formed_call (emitted (main argv fuel w)).
Proof.
  unfold main. destruct (length argv <? 2).
  - repeat (apply Forall_emitted_bind; [apply well_formed_print | intros _ ?]).
    constructor.
  - apply Forall_emitted_bind; [apply well_formed_print | intros _ ?].
    apply Forall_emitted_bind; [rewrite emitted_call; repeat constructor | intros _ ?].
    apply Forall_emitted_bind; [apply well_formed_print | intros _ ?].
    apply Forall_emitted_bind; [apply well_formed_while | intros _ ?].
    apply well_formed_print.
Qed.

(** The loop returns only through a poll at which the session reports
    that it is not alive. *)
Lemma while_alive_returned_inv (fuel : nat) (w : World) :
  result (while_alive fuel w) = Returned tt ->
  exists (n : nat) (wn : World) (evs : list event),
    n < fuel
    /\ polled n w wn evs
    /\ chat_is_alive wn = (Some false, world_after (while_alive fuel w))
    /\ emitted (while_alive fuel w) = evs ++ [EIsAlive].
Proof.
  revert w. induction fuel as [|fuel IH]; intros w H; [discriminate|].
  cbn [while_alive] in *.
  apply bind_returned_inv in H as (alive & Ha & Hk & -> & ->).
  apply call_returned_inv in Ha as [Halive ->].
  set (w1 := world_after (call EIsAlive chat_is_alive w)) in *.
  destruct alive.
  - apply bind_returned_inv in Hk as (items & Hg & Hk & -> & ->).
    apply call_returned_inv in Hg as [Hget ->].
    set (w2 := world_after (call EGet chat_get w1)) in *.
    apply bind_returned_inv in Hk as ([] & Hf & Hk & -> & ->).
    set (r := for_each items relay w2) in *.
    apply bind_returned_inv in Hk as ([] & _ & Hk & -> & ->).
    cbn [sleep world_after emitted] in *.
    destruct (IH _ Hk) as (n & wn & evs & Hn & Hp & Hdead & ->).
    exists (S n), wn, (EIsAlive :: EGet :: emitted r ++ ESleep 500 :: evs).
    split; [lia|]. split; [|split; [exact Hdead|]].
    + eapply polled_S; [exact Halive | exact Hget | reflexivity | exact Hf | exact Hp].
    + cbn [app]. rewrite <- !app_assoc. reflexivity.
  - exists 0, w, []. split; [lia|]. split; [constructor|]. split; [exact Halive | reflexivity].
Qed.

Lemma polled_control (n : nat) (w w' : World) (evs : list event) :
  polled n w w' evs ->
  filter is_control evs = concat (repeat [EIsAlive; EGet; ESleep 500] n).
Proof.
  induction 1 as [|n w w1 w2 w' items r evs Halive Hget Hr Hres Hrest IH];
    [reflexivity|].
  subst r. cbn [filter is_control repeat concat app].
  rewrite filter_app, filter_for_each_relay by reflexivity.
  cbn [filter is_control app]. now rewrite IH.
Qed.

(** What [main] does once the session is open and has been alive for
    [n] polls before it reports that it is not. *)
Lemma main_run_polled (argv : list str) (fuel n : nat) (w0 w1 wn w' : World)
    (evs : list event) :
  2 <= length argv ->
  forallb encodable (nth 1 argv []) = true ->
  pytchat_create (nth 1 argv []) w0 = (Some tt, w1) ->
  polled n w1 wn evs ->
  chat_is_alive wn = (Some false, w') ->
  n < fuel ->
  main argv fuel w0
  = Run (Returned tt) w'
      ([EPrint (py "Connecting to live chat for video: " ++ nth 1 argv []);
        ECreate (nth 1 argv []);
        EPrint (py "Connected! Listening for comments..." ++ [NEWLINE])]
       ++ evs ++ [EIsAlive; EPrint (py "Chat ended or stream offline.")]).
Proof.
  intros Hargv Henc Hcreate Hpolled Hdead Hfuel. unfold main.
  apply Nat.ltb_ge in Hargv. rewrite Hargv.
  erewrite bind_returned; [|apply print_encodable, encodable_connecting, Henc].
  cbv beta iota.
  erewrite bind_returned; [|apply call_answers; exact Hcreate]. cbv beta iota.
  erewrite bind_returned; [|reflexivity]. cbv beta iota.
  erewrite bind_returned; [|apply (while_alive_polled Hpolled Hdead); exact Hfuel].
  cbn [result world_after emitted print app].
  rewrite <- app_assoc. reflexivity.
Qed.

Lemma print_returned_inv (text : str) (w : World) :
  result (print text w) = Returned tt ->
  forallb encodable text = true /\ world_after (print text w) = w.
Proof.
  unfold print. destruct (forallb encodable text); cbn; [auto | discriminate].
Qed.

Lemma main_returned_inv (argv : list str) (fuel : nat) (w0 : World) :
  result (main argv fuel w0) = Returned tt ->
  2 <= length argv
  /\ forallb encodable (nth 1 argv []) = true
  /\ exists (n : nat) (w1 wn w' : World) (evs : list event),
       pytchat_create (nth 1 argv []) w0 = (Some tt, w1)
       /\ polled n w1 wn evs
       /\ chat_is_alive wn = (Some false, w')
       /\ n < fuel.
Proof.
  unfold main. destruct (Nat.ltb_spec (length argv) 2) as [Hlt|Hge].
  - intros H. exfalso. revert H. cbn. discriminate.
  - intros H. split; [exact Hge|].
    apply bind_returned_inv in H as ([] & Hp1 & H & _ & _).
    apply print_returned_inv in Hp1 as [Henc Hw]. rewrite Hw in H.
    rewrite forallb_app in Henc. apply andb_true_iff in Henc as [_ Henc].
    split; [exact Henc|].
    apply bind_returned_inv in H as ([] & Hc & H & _ & _).
    apply call_returned_inv in Hc as [Hcreate _].
    apply bind_returned_inv in H as ([] & Hp2 & H & _ & _).
    apply print_returned_inv in Hp2 as [_ Hw2]. rewrite Hw2 in H.
    apply bind_returned_inv in H as ([] & Hloop & _).
    destruct (while_alive_returned_inv _ _ Hloop) as (n & wn & evs & Hn & Hp & Hdead & _).
    eauto 10.
Qed.

(** X10: [main] returns normally exactly when it was given a video
    identifier that standard output can print, the session was opened
    without an exception, was alive
    for some number [n] of polls, each batch being fetched and relayed
    without an exception, then reported that it is not alive, and [n] is
    below the bound on the polls; in particular [main] never returns
    while the session reports alive. *)
Theorem main_returns_iff (argv : list str) (fuel : nat) (w0 : World) :
  result (main argv fuel w0) = Returned tt
  <-> 2 <= length argv
      /\ forallb encodable (nth 1 argv []) = true
      /\ exists (n : nat) (w1 wn w' : World) (evs : list event),
           pytchat_create (nth 1 argv []) w0 = (Some tt, w1)
           /\ polled n w1 wn evs
           /\ chat_is_alive wn = (Some false, w')
           /\ n < fuel.
Proof.
  split; [apply main_returned_inv|].
  intros (Hargv & Henc & n & w1 & wn & w' & evs & Hcreate & Hp & Hdead & Hn).
  erewrite main_run_polled; [reflexivity | eassumption..].
Qed.

(** X7: in a run of [main] that returns, the polls, the fetches and the
    sleeps come in turns of one poll, one fetch and one sleep of 500 ms,
    with one last poll after them: every batch fetched is followed by a
    sleep before the session is polled again. *)
Theorem main_paces_the_polls (argv : list str) (fuel : nat) (w0 : World) :
  result (main argv fuel w0) = Returned tt ->
  exists n : nat,
    n < fuel
    /\ filter is_control (emitted (main argv fuel w0))
       = concat (repeat [EIsAlive; EGet; ESleep 500] n) ++ [EIsAlive].
Proof.
  intros H. apply main_returned_inv in H
    as (Hargv & Henc & n & w1 & wn & w' & evs & Hcreate & Hp & Hdead & Hn).
  exists n. split; [exact Hn|].
  erewrite main_run_polled; [|eassumption..]. cbn [emitted].
  rewrite !filter_app, (polled_control Hp). reflexivity.
Qed.

(** *** Exceptions *)

Lemma bind_raised {A B} (m : M A) (k : A -> M B) (w w1 : World) (evs : list event) :
  m w = Run Raised w1 evs -> bind m k w = Run Raised w1 evs.
Proof. intros H. unfold bind. rewrite H. reflexivity. Qed.

Lemma call_raises {A} (ev : event) (op : World -> option A * World) (w w' : World) :
  op w = (None, w') -> call ev op w = Run Raised w' [ev].
Proof. intros H. unfold call. rewrite H. reflexivity. Qed.

(** A batch in which the item after [pre] is the first whose relay
    raises: nothing of the items after it is done. *)
Lemma for_each_raises (pre post : list ChatItem) (c : ChatItem) (w w' : World)
    (evs : list event) :
  result (for_each pre relay w) = Returned tt ->
  relay c (world_after (for_each pre relay w)) = Run Raised w' evs ->
  for_each (pre ++ c :: post) relay w
  = Run Raised w' (flat_map relay_events pre ++ evs).
Proof.
  revert w. induction pre as [|x pre IH]; intros w Hpre Hc.
  - cbn in Hc. cbn [app for_each flat_map]. now apply bind_raised.
  - cbn [for_each] in Hpre, Hc.
    apply bind_returned_inv in Hpre as ([] & Hx & Hrest & Hw & _).
    rewrite Hw in Hc. cbn [app for_each flat_map].
    erewrite bind_returned; [|apply run_returned; exact Hx]. cbv beta.
    rewrite (IH _ Hrest Hc). cbn [result world_after emitted].
    rewrite (emitted_relay_returned _ _ Hx), app_assoc. reflexivity.
Qed.

(** After [n] polls at which the session was alive the loop goes on as
    the loop started there, with the fuel that is left. *)
Lemma while_alive_after_polled (n : nat) (w wn : World) (evs : list event) :
  polled n w wn evs ->
  forall fuel,
    while_alive (n + fuel) w
    = Run (result (while_alive fuel wn)) (world_after (while_alive fuel wn))
          (evs ++ emitted (while_alive fuel wn)).
Proof.
  induction 1 as [|n w w1 w2 wn items r evs Halive Hget Hr Hres Hrest IH];
    intros fuel.
  - cbn [Nat.add app]. now destruct (while_alive fuel w).
  - subst r. cbn [Nat.add].
    rewrite (while_alive_alive _ _ Halive Hget Hres), IH.
    cbn [result world_after emitted].
    rewrite <- !app_comm_cons, <- app_assoc. reflexivity.
Qed.

(** What [main] does when, the session open and alive for [n] polls, the
    loop started at the next poll ends with an exception. *)
Lemma main_run_raised (argv : list str) (fuel n : nat) (w0 w1 wn w' : World)
    (evs evs' : list event) :
  2 <= length argv ->
  forallb encodable (nth 1 argv []) = true ->
  pytchat_create (nth 1 argv []) w0 = (Some tt, w1) ->
  polled n w1 wn evs ->
  n < fuel ->
  (forall k, while_alive (S k) wn = Run Raised w' evs') ->
  main argv fuel w0
  = Run Raised w'
      ([EPrint (py "Connecting to live chat for video: " ++ nth 1 argv []);
        ECreate (nth 1 argv []);
        EPrint (py "Connected! Listening for comments..." ++ [NEWLINE])]
       ++ evs ++ evs').
Proof.
  intros Hargv Henc Hcreate Hpolled Hfuel Hturn. unfold main.
  apply Nat.ltb_ge in Hargv. rewrite Hargv.
  erewrite bind_returned; [|apply print_encodable, encodable_connecting, Henc].
  cbv beta iota.
  erewrite bind_returned; [|apply call_answers; exact Hcreate]. cbv beta iota.
  erewrite bind_returned; [|reflexivity]. cbv beta iota.
  replace fuel with (n + S (fuel - S n)) by lia.
  erewrite bind_raised.
  2:{ rewrite (while_alive_after_polled Hpolled), Hturn. reflexivity. }
  cbn [app]. reflexivity.
Qed.

Lemma while_alive_batch_raises (k : nat) (w wa wb w' : World)
    (items : list ChatItem) (evs : list event) :
  chat_is_alive w = (Some true, wa) ->
  chat_get wa = (Some items, wb) ->
  for_each items relay wb = Run Raised w' evs ->
  while_alive (S k) w = Run Raised w' (EIsAlive :: EGet :: evs).
Proof.
  intros Halive Hget Hbatch. cbn [while_alive].
  erewrite bind_returned; [|apply call_answers; exact Halive]. cbv beta iota.
  erewrite bind_returned; [|apply call_answers; exact Hget]. cbv beta iota.
  erewrite bind_raised; [|exact Hbatch]. reflexivity.
Qed.

(** X2: an exception of the speech command is not caught.  When, in a
    run of [main], [subprocess.run] raises at an item of a batch (the
    items before it relayed, its line printed, its utterance fitting),
    that call is the last thing the script does: the items after it are
    neither printed nor spoken, there is no sleep, no further poll and no
    notice of the end, and the exit status is 1. *)
Theorem main_speech_exception_propagates
    (argv : list str) (fuel n : nat) (w0 w1 wn wa wb w' : World)
    (evs : list event) (pre post : list ChatItem) (c : ChatItem) :
  2 <= length argv ->
  forallb encodable (nth 1 argv []) = true ->
  pytchat_create (nth 1 argv []) w0 = (Some tt, w1) ->
  polled n w1 wn evs ->
  n < fuel ->
  chat_is_alive wn = (Some true, wa) ->
  chat_get wa = (Some (pre ++ c :: post), wb) ->
  result (for_each pre relay wb) = Returned tt ->
  forallb encodable (line c) = true ->
  fits c = true ->
  subprocess_run (say_argv default_voice (sanitize (utterance c)))
                 (world_after (for_each pre relay wb)) = (None, w') ->
  main argv fuel w0
  = Run Raised w'
      ([EPrint (py "Connecting to live chat for video: " ++ nth 1 argv []);
        ECreate (nth 1 argv []);
        EPrint (py "Connected! Listening for comments..." ++ [NEWLINE])]
       ++ evs
       ++ EIsAlive :: EGet :: flat_map relay_events pre
       ++ [EPrint (line c); ERun (say_argv default_voice (sanitize (utterance c)))])
  /\ exit_status (result (main argv fuel w0)) = Some 1%Z.
Proof.
  intros Hargv Henc Hcreate Hpolled Hfuel Halive Hget Hpre Hline Hfits Hrun.
  assert (E : main argv fuel w0
              = Run Raised w'
                  ([EPrint (py "Connecting to live chat for video: " ++ nth 1 argv []);
                    ECreate (nth 1 argv []);
                    EPrint (py "Connected! Listening for comments..." ++ [NEWLINE])]
                   ++ evs
                   ++ EIsAlive :: EGet :: flat_map relay_events pre
                   ++ [EPrint (line c);
                       ERun (say_argv default_voice (sanitize (utterance c)))])).
  { eapply main_run_raised; try eassumption.
    intros k. eapply while_alive_batch_raises; [exact Halive | exact Hget |].
    apply for_each_raises; [exact Hpre|].
    rewrite relay_printable by exact Hline. rewrite Hfits, Hrun. reflexivity. }
  rewrite E. split; reflexivity.
Qed.

(** X11: an exception of [print] is not caught.  When the video
    identifier holds a code point standard output cannot encode, [main]
    ends with the exception before it has printed anything or opened the
    chat.  When the line of an item of a batch does, [main] ends with the
    exception at that item: the item is neither printed nor spoken, and
    nothing is done after it.  The exit status is 1. *)
Theorem main_print_exception_propagates
    (argv : list str) (fuel : nat) (w0 : World) :
  2 <= length argv ->
  (forallb encodable (nth 1 argv []) = false ->
   main argv fuel w0 = Run Raised w0 []
   /\ exit_status (result (main argv fuel w0)) = Some 1%Z)
  /\ (forall (n : nat) (w1 wn wa wb : World) (evs : list event)
             (pre post : list ChatItem) (c : ChatItem),
        forallb encodable (nth 1 argv []) = true ->
        pytchat_create (nth 1 argv []) w0 = (Some tt, w1) ->
        polled n w1 wn evs ->
        n < fuel ->
        chat_is_alive wn = (Some true, wa) ->
        chat_get wa = (Some (pre ++ c :: post), wb) ->
        result (for_each pre relay wb) = Returned tt ->
        forallb encodable (line c) = false ->
        main argv fuel w0
        = Run Raised (world_after (for_each pre relay wb))
            ([EPrint (py "Connecting to live chat for video: " ++ nth 1 argv []);
              ECreate (nth 1 argv []);
              EPrint (py "Connected! Listening for comments..." ++ [NEWLINE])]
             ++ evs ++ EIsAlive :: EGet :: flat_map relay_events pre)
        /\ exit_status (result (main argv fuel w0)) = Some 1%Z).
Proof.
  intros Hargv. split.
  - intros Henc.
    assert (E : main argv fuel w0 = Run Raised w0 []).
    { unfold main. apply Nat.ltb_ge in Hargv. rewrite Hargv.
      apply bind_raised, print_unencodable.
      rewrite forallb_app, Henc. apply andb_false_r. }
    rewrite E. split; reflexivity.
  - intros n w1 wn wa wb evs pre post c Henc Hcreate Hpolled Hfuel Halive Hget Hpre Hline.
    assert (E : main argv fuel w0
                = Run Raised (world_after (for_each pre relay wb))
                    ([EPrint (py "Connecting to live chat for video: " ++ nth 1 argv []);
                      ECreate (nth 1 argv []);
                      EPrint (py "Connected! Listening for comments..." ++ [NEWLINE])]
                     ++ evs ++ EIsAlive :: EGet :: flat_map relay_events pre)).
    { eapply main_run_raised; try eassumption.
      intros k. eapply while_alive_batch_raises; [exact Halive | exact Hget |].
      rewrite <- (app_nil_r (flat_map relay_events pre)).
      apply for_each_raises; [exact Hpre|].
      now apply relay_unencodable. }
    rewrite E. split; reflexivity.
Qed.

(** X12: an exception of the chat is not caught.  When
    [pytchat.create] raises, [main] ends with the exception after the
    first banner, without the second one and without a poll; when
    [is_alive] or [get] raises after [n] polls at which the session was
    alive, [main] ends with the exception at that call, without a sleep
    and without the notice of the end.  The exit status is 1. *)
Theorem main_chat_exception_propagates
    (argv : list str) (fuel : nat) (w0 : World) :
  2 <= length argv ->
  forallb encodable (nth 1 argv []) = true ->
  (forall w', pytchat_create (nth 1 argv []) w0 = (None, w') ->
     main argv fuel w0
     = Run Raised w'
         [EPrint (py "Connecting to live chat for video: " ++ nth 1 argv []);
          ECreate (nth 1 argv [])]
     /\ exit_status (result (main argv fuel w0)) = Some 1%Z)
  /\ (forall (n : nat) (w1 wn w' : World) (evs : list event),
        pytchat_create (nth 1 argv []) w0 = (Some tt, w1) ->
        polled n w1 wn evs ->
        n < fuel ->
        chat_is_alive wn = (None, w') ->
        main argv fuel w0
        = Run Raised w'
            ([EPrint (py "Connecting to live chat for video: " ++ nth 1 argv []);
              ECreate (nth 1 argv []);
              EPrint (py "Connected! Listening for comments..." ++ [NEWLINE])]
             ++ evs ++ [EIsAlive])
        /\ exit_status (result (main argv fuel w0)) = Some 1%Z)
  /\ (forall (n : nat) (w1 wn wa w' : World) (evs : list event),
        pytchat_create (nth 1 argv []) w0 = (Some tt, w1) ->
        polled n w1 wn evs ->
        n < fuel ->
        chat_is_alive wn = (Some true, wa) ->
        chat_get wa = (None, w') ->
        main argv fuel w0
        = Run Raised w'
            ([EPrint (py "Connecting to live chat for video: " ++ nth 1 argv []);
              ECreate (nth 1 argv []);
              EPrint (py "Connected! Listening for comments..." ++ [NEWLINE])]
             ++ evs ++ [EIsAlive; EGet])
        /\ exit_status (result (main argv fuel w0)) = Some 1%Z).
Proof.
  intros Hargv Henc. split; [|split].
  - intros w' Hcreate.
    assert (E : main argv fuel w0
                = Run Raised w'
                    [EPrint (py "Connecting to live chat for video: " ++ nth 1 argv []);
                     ECreate (nth 1 argv [])]).
    { unfold main. apply Nat.ltb_ge in Hargv. rewrite Hargv.
      erewrite bind_returned; [|apply print_encodable, encodable_connecting, Henc].
      cbv beta iota.
      erewrite bind_raised; [|apply call_raises; exact Hcreate]. reflexivity. }
    rewrite E. split; reflexivity.
  - intros n w1 wn w' evs Hcreate Hpolled Hfuel Halive.
    erewrite main_run_raised; try eassumption; [split; reflexivity|].
    intros k. cbn [while_alive]. apply bind_raised, call_raises, Halive.
  - intros n w1 wn wa w' evs Hcreate Hpolled Hfuel Halive Hget.
    erewrite main_run_raised; try eassumption; [split; reflexivity|].
    intros k. cbn [while_alive].
    erewrite bind_returned; [|apply call_answers; exact Halive]. cbv beta iota.
    erewrite bind_raised; [|apply call_raises; exact Hget]. reflexivity.
Qed.

End MoreMainProperties.

(** ** The whole run on a scripted chat *)

Section Scripted.
Context {U : UnicodeDB}.
#[local] Existing Instance scripted.

Lemma relay_scripted (c : ChatItem) (w : World) :
  relayable c = true -> relay c w = Run (Returned tt) w (relay_events c).
Proof.
  intros H. apply andb_true_iff in H as [Hline Hexec].
  rewrite relay_printable by exact Hline. unfold relay_events.
  destruct (fits c); [|reflexivity].
  cbn [negb orb] in Hexec. cbn [subprocess_run scripted fst snd].
  rewrite Hexec. reflexivity.
Qed.

Lemma for_each_scripted (items : list ChatItem) (w : World) :
  forallb relayable items = true ->
  for_each items relay w = Run (Returned tt) w (flat_map relay_events items).
Proof.
  induction items as [|c items IH]; [reflexivity|].
  intros H. cbn [forallb] in H. apply andb_true_iff in H as [Hc Hitems].
  cbn [for_each flat_map]. erewrite bind_returned; [|now apply relay_scripted].
  rewrite IH by exact Hitems. reflexivity.
Qed.

Lemma polled_scripted (batches : list (list ChatItem)) :
  forallb relayable (concat batches) = true ->
  polled (length batches) batches [] (flat_map turn_events batches).
Proof.
  induction batches as [|b bs IH]; [constructor|].
  cbn [concat]. rewrite forallb_app. intros H.
  apply andb_true_iff in H as [Hb Hbs].
  replace (flat_map turn_events (b :: bs))
    with (EIsAlive :: EGet :: emitted (for_each b relay bs)
            ++ ESleep 500 :: flat_map turn_events bs).
  2:{ rewrite for_each_scripted by exact Hb. cbn [emitted flat_map].
      unfold turn_events at 2. cbn [app]. rewrite <- app_assoc. reflexivity. }
  cbn [length].
  eapply polled_S; [reflexivity | reflexivity | reflexivity | | ];
    rewrite for_each_scripted by exact Hb; [reflexivity | exact (IH Hbs)].
Qed.

Lemma printed_turns (batches : list (list ChatItem)) :
  printed (flat_map turn_events batches) = map line (concat batches).
Proof.
  induction batches as [|b bs IH]; [reflexivity|].
  cbn [flat_map concat]. rewrite printed_app, map_app, IH. f_equal.
  unfold turn_events. cbn [printed].
  rewrite printed_app, printed_relay_events. apply app_nil_r.
Qed.

Lemma spoken_turns (batches : list (list ChatItem)) :
  spoken (flat_map turn_events batches)
  = map (fun c => say_argv default_voice (sanitize (utterance c)))
        (filter fits (concat batches)).
Proof.
  induction batches as [|b bs IH]; [reflexivity|].
  cbn [flat_map concat]. rewrite spoken_app, filter_app, map_app, IH. f_equal.
  unfold turn_events. cbn [spoken].
  rewrite spoken_app, spoken_relay_events. apply app_nil_r.
Qed.

Lemma gets_turns (batches : list (list ChatItem)) :
  length (filter is_get (flat_map turn_events batches)) = length batches.
Proof.
  induction batches as [|b bs IH]; [reflexivity|].
  cbn [flat_map length]. rewrite filter_app, length_app, IH.
  unfold turn_events. cbn [filter is_get length]. rewrite filter_app, length_app.
  replace (filter is_get (flat_map relay_events b)) with (@nil event); [reflexivity|].
  induction b as [|c b IHb]; [reflexivity|].
  cbn [flat_map]. rewrite filter_app, <- IHb. unfold relay_events.
  destruct (fits c); reflexivity.
Qed.

(** X9: on the scripted machine (a chat that delivers the batches of a
    script and then ends, a speech command that is installed and does
    not fail, a standard output in UTF-8), given a video identifier
    without surrogates and batches whose items are all relayable (no
    surrogate in the line, no U+0000 and no stray surrogate in an
    utterance that fits), [main] returns with exit status 0 after one
    fetch a batch; it has printed the two banners, one line for every
    item of every batch in the order of arrival, and the notice of the
    end, and it has spoken, in the same order, the sanitized utterances
    of the items whose sanitized utterance has at most 200 characters. *)
Theorem main_relays_the_script
    (batches : list (list ChatItem)) (argv : list str) (fuel : nat) :
  2 <= length argv ->
  forallb encodable (nth 1 argv []) = true ->
  forallb relayable (concat batches) = true ->
  length batches < fuel ->
  let r := main argv fuel batches in
  result r = Returned tt
  /\ exit_status (result r) = Some 0%Z
  /\ world_after r = []
  /\ printed (emitted r)
     = [py "Connecting to live chat for video: " ++ nth 1 argv [];
        py "Connected! Listening for comments..." ++ [NEWLINE]]
       ++ map line (concat batches) ++ [py "Chat ended or stream offline."]
  /\ spoken (emitted r)
     = map (fun c => say_argv default_voice (sanitize (utterance c)))
           (filter fits (concat batches))
  /\ length (filter is_get (emitted r)) = length batches.
Proof.
  intros Hargv Henc Hitems Hfuel r. subst r.
  erewrite main_run_polled;
    [| exact Hargv | exact Henc | reflexivity | apply polled_scripted, Hitems
     | reflexivity | exact Hfuel].
  cbn [result world_after emitted exit_status].
  repeat split.
  - cbn [app printed]. rewrite printed_app, printed_turns. reflexivity.
  - cbn [app spoken]. rewrite spoken_app, spoken_turns. cbn [spoken]. apply app_nil_r.
  - cbn [app filter is_get]. rewrite filter_app, length_app, gets_turns.
    cbn [filter is_get length]. lia.
Qed.

End Scripted.

(** ** Every message is printed, then said *)

Section EveryMessage.
Context {U : UnicodeDB} {C : Collaborators}.

Lemma relayed_polled (batches : list (list ChatItem)) (w w' : World) :
  relayed batches w w' ->
  polled (length batches) w w' (flat_map turn_events batches).
Proof.
  induction 1 as [|items batches w w1 w2 w' Halive Hget Hres Hrest IH];
    [constructor|].
  cbn [length flat_map]. unfold turn_events at 1.
  rewrite <- (for_each_relay_returned _ _ Hres).
  cbn [app]. rewrite <- app_assoc. cbn [app].
  eapply polled_S; [exact Halive | exact Hget | reflexivity | exact Hres | exact IH].
Qed.

(** C1 (amended): the loop body on an item whose line standard output
    can encode first prints the author, a colon and a space, and the
    message, both as received, and then hands the friendly name, the word
    says and the message to [say], whose end is the end of the loop body;
    the line is printed whether or not [say] discards the text, and for a
    message of 250 characters of which at most 56 are quotes nothing is
    spoken and the line is printed.  On an item whose line standard
    output cannot encode, [print] raises: nothing is printed and nothing
    is said.  A batch relayed to its end, and a run of [main] that lasts
    until the session reports that it is not alive, have done this for
    every item received, in the order of arrival. *)
Theorem messages_printed_then_said (c : ChatItem) (w : World) :
  (forallb encodable (line c) = true ->
   relay c w
   = Run (result (say (utterance c) default_voice w))
         (world_after (say (utterance c) default_voice w))
         (EPrint (line c) :: emitted (say (utterance c) default_voice w))
   /\ (emitted (say (utterance c) default_voice w) = []
       \/ emitted (say (utterance c) default_voice w)
          = [ERun [py "say"; py "-v"; default_voice; sanitize (utterance c)]])
   /\ (length (message c) = 250 -> quotes (message c) <= 56 ->
       relay c w = Run (Returned tt) w [EPrint (line c)]))
  /\ (forallb encodable (line c) = false -> relay c w = Run Raised w [])
  /\ (forall (items : list ChatItem) (w1 : World),
        result (for_each items relay w1) = Returned tt ->
        emitted (for_each items relay w1) = flat_map relay_events items
        /\ printed (emitted (for_each items relay w1)) = map line items)
  /\ (forall (argv : list str) (fuel : nat) (batches : list (list ChatItem))
             (w0 w1 wn w' : World),
        2 <= length argv ->
        forallb encodable (nth 1 argv []) = true ->
        pytchat_create (nth 1 argv []) w0 = (Some tt, w1) ->
        relayed batches w1 wn ->
        chat_is_alive wn = (Some false, w') ->
        length batches < fuel ->
        emitted (main argv fuel w0)
        = [EPrint (py "Connecting to live chat for video: " ++ nth 1 argv []);
           ECreate (nth 1 argv []);
           EPrint (py "Connected! Listening for comments..." ++ [NEWLINE])]
          ++ flat_map turn_events batches
          ++ [EIsAlive; EPrint (py "Chat ended or stream offline.")]
        /\ printed (emitted (main argv fuel w0))
           = [py "Connecting to live chat for video: " ++ nth 1 argv [];
              py "Connected! Listening for comments..." ++ [NEWLINE]]
             ++ map line (concat batches) ++ [py "Chat ended or stream offline."]).
Proof.
  split; [|split; [|split]].
  - intros Hline. split; [now apply relay_unfold|]. split; [apply emitted_say|].
    intros Hlen Hq. rewrite relay_unfold by exact Hline.
    fold (utterance c) (line c).
    assert (E : say (utterance c) default_voice w = Run (Returned tt) w []).
    { apply say_skips. apply orb_true_iff. right. apply Nat.ltb_lt.
      unfold utterance. rewrite !sanitize_app, !length_app.
      pose proof (length_sanitize (message c)).
      change (length (sanitize (py " says: "))) with 7. lia. }
    rewrite E. reflexivity.
  - apply relay_unencodable.
  - intros items w1 H. rewrite (for_each_relay_returned _ _ H).
    split; [reflexivity | apply printed_relay_events].
  - intros argv fuel batches w0 w1 wn w' Hargv Henc Hcreate Hbatches Hdead Hfuel.
    erewrite main_run_polled;
      [| exact Hargv | exact Henc | exact Hcreate | apply relayed_polled, Hbatches
       | exact Hdead | exact Hfuel].
    cbn [emitted]. split; [reflexivity|].
    cbn [app printed]. rewrite printed_app, printed_turns. reflexivity.
Qed.

End EveryMessage.

(** ** The further properties at concrete inputs *)

Section MoreExamples.
#[local] Existing Instance ascii_only.

(** The witness of X8: a space, two @, NuLl and a tab. *)
Lemma friendly_name_decorated_witness :
  forallb ascii_whitespace (py " ") = true
  /\ forallb ascii_whitespace [9%N] = true
  /\ map ascii_tolower (py "NuLl") = py "null"
  /\ friendly_name (py " @@NuLl" ++ [9%N]) = py "null".
Proof.
  repeat (split; [reflexivity|]).
  apply (@friendly_name_decorated ascii_only (py " ") [9%N] (py "NuLl") 2);
    [reflexivity | reflexivity | right; reflexivity].
Defined.

(** The witness of X1: a batch of two items on the scripted chat. *)
Lemma for_each_relay_prefix_witness :
  let items := [ {| author_name := py "Nu11"; message := py "hello world" |};
                 {| author_name := py "@Foo"; message := py "hi" |} ] in
  result (@for_each scripted _ items relay quiet) = Returned tt
  /\ exists n : nat,
       n <= length items
       /\ emitted (@for_each scripted _ items relay quiet)
          = flat_map relay_events (firstn n items)
       /\ printed (emitted (@for_each scripted _ items relay quiet))
          = map line (firstn n items)
       /\ (result (@for_each scripted _ items relay quiet) = Returned tt
           -> n = length items).
Proof.
  intros items. split; [reflexivity|].
  apply (@for_each_relay_prefix ascii_only scripted items quiet).
Defined.

(** The witness of X2: one message, on a machine without the speech
    command. *)
Lemma main_speech_exception_propagates_witness :
  let argv := [py "youtube_say.py"; py "dQw4w9WgXcQ"] in
  let c := {| author_name := py "Bob"; message := py "hi" |} in
  main (C := no_say) argv 1 [[c]]
  = Run (C := no_say) Raised []
      [EPrint (py "Connecting to live chat for video: dQw4w9WgXcQ");
       ECreate (py "dQw4w9WgXcQ");
       EPrint (py "Connected! Listening for comments..." ++ [NEWLINE]);
       EIsAlive; EGet; EPrint (py "Bob: hi");
       ERun [py "say"; py "-v"; py "Samantha"; py "Bob says: hi"]]
  /\ exit_status (result (main (C := no_say) argv 1 [[c]])) = Some 1%Z.
Proof.
  intros argv c.
  refine (@main_speech_exception_propagates ascii_only no_say argv 1 0
            [[c]] [[c]] [[c]] [[c]] [] [] [] [] [] c _ _ _ _ _ _ _ _ _ _ _).
  - vm_compute; lia.
  - reflexivity.
  - reflexivity.
  - apply polled_O.
  - lia.
  - reflexivity.
  - reflexivity.
  - reflexivity.
  - reflexivity.
  - reflexivity.
  - reflexivity.
Defined.

(** The witness of X11: an author that is a lone surrogate, U+D83D. *)
Lemma main_print_exception_propagates_witness :
  let argv := [py "youtube_say.py"; py "dQw4w9WgXcQ"] in
  let c := {| author_name := [55357%N]; message := py "hi" |} in
  forallb (@encodable scripted) (line c) = false
  /\ main (C := scripted) argv 1 [[c]]
     = Run (C := scripted) Raised []
         [EPrint (py "Connecting to live chat for video: dQw4w9WgXcQ");
          ECreate (py "dQw4w9WgXcQ");
          EPrint (py "Connected! Listening for comments..." ++ [NEWLINE]);
          EIsAlive; EGet]
  /\ exit_status (result (main (C := scripted) argv 1 [[c]])) = Some 1%Z.
Proof.
  intros argv c. split; [reflexivity|].
  refine (proj2 (@main_print_exception_propagates ascii_only scripted argv 1 [[c]] _)
            0 [[c]] [[c]] [[c]] [] [] [] [] c _ _ _ _ _ _ _ _).
  - vm_compute; lia.
  - reflexivity.
  - reflexivity.
  - apply polled_O.
  - lia.
  - reflexivity.
  - reflexivity.
  - reflexivity.
  - reflexivity.
Defined.

(** The witness of X12: the chat cannot be opened. *)
Lemma main_chat_exception_propagates_witness :
  let argv := [py "youtube_say.py"; py "dQw4w9WgXcQ"] in
  main (C := offline) argv 1 tt
  = Run (C := offline) Raised tt
      [EPrint (py "Connecting to live chat for video: dQw4w9WgXcQ");
       ECreate (py "dQw4w9WgXcQ")]
  /\ exit_status (result (main (C := offline) argv 1 tt)) = Some 1%Z.
Proof.
  intros argv.
  refine (proj1 (@main_chat_exception_propagates ascii_only offline argv 1 tt _ _) tt _).
  - vm_compute; lia.
  - reflexivity.
  - reflexivity.
Defined.

(** The witness of X5, at the text hi and at a text of two newlines. *)
Lemma say_speaks_exactly_witness :
  say (C := scripted) (py "hi") default_voice quiet
  = Run (Returned tt) quiet [ERun [py "say"; py "-v"; py "Samantha"; py "hi"]]
  /\ say (C := scripted) [NEWLINE; NEWLINE] default_voice quiet
     = Run (Returned tt) quiet [].
Proof.
  split.
  - refine (proj1 (@say_speaks_exactly ascii_only scripted (py "hi") default_voice quiet) _).
    split; [vm_compute; lia|].
    exists 104%N. repeat split; try discriminate. left; reflexivity.
  - refine (proj2 (@say_speaks_exactly ascii_only scripted [NEWLINE; NEWLINE]
                     default_voice quiet) _).
    intros [_ (c & Hin & _ & _ & Hc)].
    destruct Hin as [<-|[<-|[]]]; discriminate Hc.
Defined.

(** The witness of C1: Bob sends 250 times the letter x. *)
Lemma messages_printed_then_said_witness :
  let c := {| author_name := py "Bob"; message := repeat 120%N 250 |} in
  forallb (@encodable scripted) (line c) = true
  /\ length (message c) = 250
  /\ quotes (message c) <= 56
  /\ relay (C := scripted) c quiet
     = Run (Returned tt) quiet [EPrint (py "Bob: " ++ repeat 120%N 250)].
Proof.
  intros c. split; [reflexivity|]. split; [reflexivity|]. split; [vm_compute; lia|].
  refine (proj2 (proj2 (proj1 (@messages_printed_then_said ascii_only scripted c quiet)
                          _)) _ _);
    [reflexivity | reflexivity | vm_compute; lia].
Defined.

(** C1 as the specification words it fails twice.  A message of 250
    double quotes is spoken: its sanitized utterance is short.  And the
    line of an author that is a lone surrogate, U+D83D, is not printed on
    a standard output in UTF-8: [print] raises, and nothing is said. *)
Lemma messages_not_always_printed_or_silent :
  (let c := {| author_name := py "a"; message := repeat DQUOTE 250 |} in
   length (message c) = 250
   /\ emitted (relay (U := ascii_only) (C := scripted) c quiet)
      = [EPrint (py "a: " ++ repeat DQUOTE 250);
         ERun [py "say"; py "-v"; py "Samantha"; py "a says: "]])
  /\ (let c := {| author_name := [55357%N]; message := py "hi" |} in
      relay (U := ascii_only) (C := scripted) c quiet = Run Raised quiet []
      /\ printed (emitted (main (U := ascii_only) (C := scripted)
                             [py "youtube_say.py"; py "dQw4w9WgXcQ"] 2 [[c]]))
         = [py "Connecting to live chat for video: dQw4w9WgXcQ";
            py "Connected! Listening for comments..." ++ [NEWLINE]]
      /\ exit_status (result (main (U := ascii_only) (C := scripted)
                                [py "youtube_say.py"; py "dQw4w9WgXcQ"] 2 [[c]]))
         = Some 1%Z).
Proof. repeat split. Qed.

(** The witness of X7: one batch, then the chat ends. *)
Lemma main_paces_the_polls_witness :
  let argv := [py "youtube_say.py"; py "dQw4w9WgXcQ"] in
  let w0 := [[{| author_name := py "Nu11"; message := py "hello world" |}]] in
  result (@main ascii_only scripted argv 2 w0) = Returned tt
  /\ exists n : nat,
       n < 2
       /\ filter is_control (emitted (@main ascii_only scripted argv 2 w0))
          = concat (repeat [EIsAlive; EGet; ESleep 500] n) ++ [EIsAlive].
Proof.
  intros argv w0. split; [reflexivity|].
  apply (@main_paces_the_polls ascii_only scripted argv 2 w0). reflexivity.
Defined.

(** The witness of X9: two batches, the second one empty. *)
Lemma main_relays_the_script_witness :
  let argv := [py "youtube_say.py"; py "dQw4w9WgXcQ"] in
  let batches := [[{| author_name := py "Nu11"; message := py "hello world" |}]; []] in
  2 <= length argv
  /\ forallb (@encodable scripted) (nth 1 argv []) = true
  /\ forallb relayable (concat batches) = true
  /\ length batches < 3
  /\ printed (emitted (@main ascii_only scripted argv 3 batches))
     = [py "Connecting to live chat for video: dQw4w9WgXcQ";
        py "Connected! Listening for comments..." ++ [NEWLINE];
        py "Nu11: hello world";
        py "Chat ended or stream offline."].
Proof.
  intros argv batches. split; [vm_compute; lia|]. split; [reflexivity|].
  split; [reflexivity|]. split; [vm_compute; lia|].
  refine (proj1 (proj2 (proj2 (proj2
            (@main_relays_the_script ascii_only batches argv 3 _ _ _ _)))));
    [vm_compute; lia | reflexivity | reflexivity | vm_compute; lia].
Defined.

End MoreExamples.
